(** * apispec_webframeworks.tornado: the Tornado plugin of apispec

    A shallow embedding of [src/apispec_webframeworks/tornado.py] and the
    properties of its path normalizer, operation extractor, handler metadata
    extraction and [path_helper] entry point.

    Conventions of the embedding:
    - Python [str] is [string]; a Python [dict] is an association list with
      unique keys kept in insertion order (the code reads
      [list(operations.keys())[0]], so the order is observable);
    - a raised exception is the left injection of a sum, [exn + A];
    - [assert] statements are executed (the interpreter's default mode);
    - [operations] is a dict mutated in place: the entry point returns the
      final store next to its result, and the store survives an exception. *)

From Stdlib Require Import String Ascii List Arith NArith Bool Lia.
From Stdlib Require Import Permutation Sorted.
Import ListNotations.

Local Open Scope string_scope.
Local Open Scope list_scope.

(** ** Python strings *)

Module PyStr.

(** [s.count(c)] for a one-character needle. *)
Fixpoint count (c : ascii) (s : string) : nat :=
  match s with
  | EmptyString => 0
  | String a s' => (if Ascii.eqb a c then 1 else 0) + count c s'
  end.

(** [c in chars]. *)
Fixpoint mem (c : ascii) (chars : string) : bool :=
  match chars with
  | EmptyString => false
  | String a chars' => Ascii.eqb c a || mem c chars'
  end.

Definition is_empty (s : string) : bool :=
  match s with
  | EmptyString => true
  | String _ _ => false
  end.

(** [s.rstrip(chars)]: drop the longest suffix made of characters of
    [chars]. *)
Fixpoint rstrip (chars : string) (s : string) : string :=
  match s with
  | EmptyString => EmptyString
  | String a s' =>
      let r := rstrip chars s' in
      if is_empty r && mem a chars then EmptyString else String a r
  end.

(** Every character of [s] belongs to [chars]. *)
Fixpoint all_in (chars : string) (s : string) : bool :=
  match s with
  | EmptyString => true
  | String a s' => mem a chars && all_in chars s'
  end.

(** The last character of [s], if any. *)
Fixpoint last (s : string) : option ascii :=
  match s with
  | EmptyString => None
  | String a EmptyString => Some a
  | String _ s' => last s'
  end.

(** [f"{{{arg}}}"]. *)
Definition braces (arg : string) : string := "{" ++ arg ++ "}".

End PyStr.

(** ** Python dicts, insertion ordered *)

Module PyDict.

Definition dict (V : Type) : Type := list (string * V).

Fixpoint get {V} (k : string) (d : dict V) : option V :=
  match d with
  | [] => None
  | (k', v) :: d' => if String.eqb k k' then Some v else get k d'
  end.

(** [d[k] = v]: an existing key keeps its position, a new key goes last. *)
Fixpoint set {V} (k : string) (v : V) (d : dict V) : dict V :=
  match d with
  | [] => [(k, v)]
  | (k', v') :: d' =>
      if String.eqb k k' then (k', v) :: d' else (k', v') :: set k v d'
  end.

(** [d.update(other)]. *)
Definition update {V} (d other : dict V) : dict V :=
  fold_left (fun acc kv => set (fst kv) (snd kv) acc) other d.

Definition keys {V} (d : dict V) : list string := map fst d.

(** Truth value of a dict: non-empty. *)
Definition truthy {V} (d : dict V) : bool :=
  match d with
  | [] => false
  | _ :: _ => true
  end.

End PyDict.

Import PyDict.

(** ** Values and exceptions *)

(** Structured data as the docstring parser returns it (a YAML document). *)
#[local] Unset Elimination Schemes.

Inductive yaml : Type :=
| YNull
| YBool (b : bool)
| YInt (n : nat)
| YStr (s : string)
| YSeq (items : list yaml)
| YMap (entries : dict yaml).

#[local] Set Elimination Schemes.

(** A callable attribute of a handler: its [__doc__] and the parameter names
    [inspect.signature] reports, in declaration order. *)
Record Method : Type := {
  method_doc : option string;
  parameters : list string
}.

(** A handler: its own [__doc__] and its attributes by name. *)
Record Handler : Type := {
  handler_doc : option string;
  attributes : dict Method
}.

(** A compiled regular expression, as far as the plugin reads it. *)
Record Regex : Type := {
  groups : nat;
  groupindex : dict nat
}.

(** [tornado.routing.PathMatches]. *)
Record Matcher : Type := {
  matcher_regex : Regex;
  matcher_path : string
}.

(** A URLSpec. Since tornado 4.5 the regex and the template live on
    [urlspec.matcher]; before, on the URLSpec itself. *)
Inductive URLSpec : Type :=
| URLSpecMatcher (handler_class : Handler) (matcher : Matcher)
| URLSpecLegacy (handler_class : Handler) (regex : Regex) (_path : string).

Definition handler_class (u : URLSpec) : Handler :=
  match u with
  | URLSpecMatcher h _ => h
  | URLSpecLegacy h _ _ => h
  end.

Inductive exn : Type :=
| AssertionError (msg : option string)
| AttributeError (name : string)
| IndexError
| TypeError (msg : string)
| ValueError (msg : string)
| APISpecError (urlspec : URLSpec)
| URLSpecInitError.

Definition result (A : Type) : Type := (exn + A)%type.

Definition raise {A} (e : exn) : result A := inl e.

Definition rmap {A B} (f : A -> B) (r : result A) : result B :=
  match r with
  | inl e => inl e
  | inr a => inr (f a)
  end.

(** ** [str % tuple]

    Printf-style formatting of a [str] template with a tuple of [str]
    arguments, as CPython's [PyUnicode_Format] does it in one pass over the
    template: literal text is copied; a [%] opens a conversion specifier,
    which is a mapping key (refused for a tuple), flags, a width, a
    precision, a length modifier and a conversion character. Characters are
    code points below 256; exhaustion of memory by a huge width is not
    modelled. *)

Definition not_enough_arguments : string :=
  "not enough arguments for format string".

Definition not_all_converted : string :=
  "not all arguments converted during string formatting".

Module Printf.

(** [PY_SSIZE_T_MAX] and [INT_MAX] of a 64-bit build, the bounds of the
    width and of the precision. *)
Definition PY_SSIZE_T_MAX : N := 9223372036854775807.

Definition INT_MAX : N := 2147483647.

Definition is_digit (c : ascii) : bool :=
  (N.leb 48 (N_of_ascii c) && N.leb (N_of_ascii c) 57)%bool.

Definition digit_value (c : ascii) : N := (N_of_ascii c - 48)%N.

(** One more digit of a width or precision; [None] when it gets too big. *)
Definition grow (limit n : N) (c : ascii) : option N :=
  if N.ltb ((limit - digit_value c) / 10) n then None
  else Some (n * 10 + digit_value c)%N.

(** A parsed conversion specifier. Of the flags only [-] matters for a
    [str] argument. *)
Record Spec : Type := {
  left_justify : bool;
  width : option N;
  precision : option N;
  conversion : ascii
}.

(** What the pass over the template meets, in order. *)
Inductive item : Type :=
| Literal (c : ascii)
| Convert (spec : Spec)
| Star
| Invalid (e : exn).

(** Where the pass is inside a conversion specifier. *)
Inductive state : Type :=
| Text
| Start
| Flags (ljust : bool)
| Width (ljust : bool) (w : N)
| Dot (ljust : bool) (w : option N)
| Prec (ljust : bool) (w : option N) (p : N)
| Length (ljust : bool) (w : option N) (p : option N).

Inductive action : Type :=
| Goto (st : state)
| Emit (it : item)
| Stop (it : item).

(** The conversion character; [%] writes a percent sign and takes no
    argument. *)
Definition at_conversion (l : bool) (w p : option N) (c : ascii) : action :=
  if Ascii.eqb c "%" then Emit (Literal "%")
  else Emit (Convert {| left_justify := l; width := w; precision := p;
                        conversion := c |}).

(** One of [h], [l], [L] is skipped. *)
Definition at_length (l : bool) (w p : option N) (c : ascii) : action :=
  if (Ascii.eqb c "h" || Ascii.eqb c "l" || Ascii.eqb c "L")%bool
  then Goto (Length l w p)
  else at_conversion l w p c.

Definition at_dot (l : bool) (w : option N) (c : ascii) : action :=
  if Ascii.eqb c "." then Goto (Dot l w) else at_length l w None c.

(** A [*] takes the width from the arguments, which must be an [int]. *)
Definition at_width (l : bool) (c : ascii) : action :=
  if Ascii.eqb c "*" then Stop Star
  else if is_digit c then Goto (Width l (digit_value c))
  else at_dot l None c.

Definition at_flags (l : bool) (c : ascii) : action :=
  if Ascii.eqb c "-" then Goto (Flags true)
  else if (Ascii.eqb c "+" || Ascii.eqb c " " || Ascii.eqb c "#"
           || Ascii.eqb c "0")%bool then Goto (Flags l)
  else at_width l c.

Definition step (st : state) (c : ascii) : action :=
  match st with
  | Text => if Ascii.eqb c "%" then Goto Start else Emit (Literal c)
  | Start =>
      if Ascii.eqb c "("
      then Stop (Invalid (TypeError "format requires a mapping"))
      else at_flags false c
  | Flags l => at_flags l c
  | Width l w =>
      if is_digit c then
        match grow PY_SSIZE_T_MAX w c with
        | Some w' => Goto (Width l w')
        | None => Stop (Invalid (ValueError "width too big"))
        end
      else at_dot l (Some w) c
  | Dot l w =>
      if Ascii.eqb c "*" then Stop Star
      else if is_digit c then Goto (Prec l w (digit_value c))
      else at_length l w (Some 0%N) c
  | Prec l w p =>
      if is_digit c then
        match grow INT_MAX p c with
        | Some p' => Goto (Prec l w p')
        | None => Stop (Invalid (ValueError "precision too big"))
        end
      else at_length l w (Some p) c
  | Length l w p => at_conversion l w p c
  end.

(** The pass over the template; a specifier cut short by the end of the
    template is an incomplete format. *)
Fixpoint scan (st : state) (tpl : string) : list item :=
  match tpl with
  | EmptyString =>
      match st with
      | Text => []
      | _ => [Invalid (ValueError "incomplete format")]
      end
  | String c rest =>
      match step st c with
      | Goto st' => scan st' rest
      | Emit it => it :: scan Text rest
      | Stop it => [it]
      end
  end.

(** [repr] and [ascii] of a [str]. *)
Definition squote : ascii := "'".

Definition dquote : ascii := ascii_of_nat 34.

Definition backslash : ascii := "\".

Definition hex_digit (n : N) : ascii :=
  match String.get (N.to_nat n) "0123456789abcdef" with
  | Some c => c
  | None => "0"
  end.

Definition hex_escape (c : ascii) : string :=
  String backslash
    (String "x"
       (String (hex_digit (N_of_ascii c / 16))
          (String (hex_digit (N_of_ascii c mod 16)) EmptyString))).

(** [str.isprintable] on one code point above 127. *)
Definition printable_latin1 (n : N) : bool :=
  (N.leb 161 n && negb (N.eqb n 173))%bool.

Definition escape_char (quote : ascii) (ascii_only : bool) (c : ascii)
  : string :=
  let n := N_of_ascii c in
  if (Ascii.eqb c quote || Ascii.eqb c backslash)%bool
  then String backslash (String c EmptyString)
  else if N.eqb n 9 then String backslash "t"
  else if N.eqb n 10 then String backslash "n"
  else if N.eqb n 13 then String backslash "r"
  else if (N.ltb n 32 || N.eqb n 127)%bool then hex_escape c
  else if N.ltb n 127 then String c EmptyString
  else if (negb ascii_only && printable_latin1 n)%bool
  then String c EmptyString
  else hex_escape c.

Fixpoint escape (quote : ascii) (ascii_only : bool) (s : string) : string :=
  match s with
  | EmptyString => EmptyString
  | String c s' =>
      (escape_char quote ascii_only c ++ escape quote ascii_only s')%string
  end.

Definition quoted (ascii_only : bool) (s : string) : string :=
  let quote :=
    if (PyStr.mem squote s && negb (PyStr.mem dquote s))%bool
    then dquote else squote in
  String quote (escape quote ascii_only s ++ String quote EmptyString).

Definition py_repr (s : string) : string := quoted false s.

Definition py_ascii (s : string) : string := quoted true s.

Fixpoint spaces (n : nat) : string :=
  match n with
  | O => EmptyString
  | S n' => String " " (spaces n')
  end.

(** The precision cuts the text of [s], [r] and [a]. *)
Definition truncate (spec : Spec) (text : string) : string :=
  match precision spec with
  | Some p => String.substring 0 (N.to_nat p) text
  | None => text
  end.

(** The width pads with spaces, on the left unless [-] is given. *)
Definition pad (spec : Spec) (text : string) : string :=
  let w := match width spec with Some w => N.to_nat w | None => 0 end in
  let fill := spaces (w - String.length text) in
  if left_justify spec then (text ++ fill)%string else (fill ++ text)%string.

(** One conversion of a [str] argument. Messages that name the offending
    character or its index in Python are shortened. *)
Definition convert (spec : Spec) (arg : string) : result string :=
  let c := conversion spec in
  if Ascii.eqb c "s" then inr (pad spec (truncate spec arg))
  else if Ascii.eqb c "r" then inr (pad spec (truncate spec (py_repr arg)))
  else if Ascii.eqb c "a" then inr (pad spec (truncate spec (py_ascii arg)))
  else if Ascii.eqb c "c" then
    if Nat.eqb (String.length arg) 1 then inr (pad spec arg)
    else raise (TypeError "%c requires int or char")
  else if (Ascii.eqb c "d" || Ascii.eqb c "i" || Ascii.eqb c "u")%bool
  then raise (TypeError "%d format: a real number is required, not str")
  else if (Ascii.eqb c "o" || Ascii.eqb c "x" || Ascii.eqb c "X")%bool
  then raise (TypeError "%x format: an integer is required, not str")
  else if (Ascii.eqb c "e" || Ascii.eqb c "E" || Ascii.eqb c "f"
           || Ascii.eqb c "F" || Ascii.eqb c "g" || Ascii.eqb c "G")%bool
  then raise (TypeError "must be real number, not str")
  else raise (ValueError "unsupported format character").

(** The items in order, each conversion taking the next argument; unused
    arguments at the end are an error. *)
Fixpoint run (items : list item) (args : list string) : result string :=
  match items with
  | [] =>
      match args with
      | [] => inr EmptyString
      | _ :: _ => raise (TypeError not_all_converted)
      end
  | Literal c :: items' => rmap (String c) (run items' args)
  | Convert spec :: items' =>
      match args with
      | [] => raise (TypeError not_enough_arguments)
      | a :: args' =>
          match convert spec a with
          | inl e => inl e
          | inr text => rmap (String.append text) (run items' args')
          end
      end
  | Star :: _ =>
      match args with
      | [] => raise (TypeError not_enough_arguments)
      | _ :: _ => raise (TypeError "* wants int")
      end
  | Invalid e :: _ => raise e
  end.

(** The number of arguments the template takes: one per conversion other
    than [%%]; [None] for a template no tuple of [str] can fill (a mapping
    key, a [*], a specifier cut short, a width or precision too big). *)
Fixpoint count_slots (items : list item) : option nat :=
  match items with
  | [] => Some 0
  | Literal _ :: items' => count_slots items'
  | Convert _ :: items' => option_map S (count_slots items')
  | Star :: _ => None
  | Invalid _ :: _ => None
  end.

End Printf.

Definition py_format (tpl : string) (args : list string) : result string :=
  Printf.run (Printf.scan Printf.Text tpl) args.

Definition positional_slots (tpl : string) : option nat :=
  Printf.count_slots (Printf.scan Printf.Text tpl).

(** The number of [%s] slots of a template made of literal text, [%s]
    slots and [%%];
    [None] for a template with a lone [%] or another conversion. *)
Fixpoint slot_count (tpl : string) : option nat :=
  match tpl with
  | EmptyString => Some 0
  | String c rest =>
      if Ascii.eqb c "%" then
        match rest with
        | EmptyString => None
        | String conv rest' =>
            if Ascii.eqb conv "%" then slot_count rest'
            else if Ascii.eqb conv "s" then option_map S (slot_count rest')
            else None
        end
      else slot_count rest
  end.

(** A template given by its literal pieces: [lit0 %s lit1 %s ... litn]. *)
Fixpoint template (lit : string) (pieces : list string) : string :=
  match pieces with
  | [] => lit
  | lit' :: pieces' => lit ++ "%s" ++ template lit' pieces'
  end.

(** The same pieces with the slots filled by [args], in order. *)
Fixpoint filled (lit : string) (pieces args : list string) : string :=
  match pieces, args with
  | lit' :: pieces', a :: args' => lit ++ a ++ filled lit' pieces' args'
  | _, _ => lit
  end.

Definition percent_free (s : string) : Prop := PyStr.count "%" s = 0.

(** ** TornadoPlugin.tornadopath2openapi *)

(** [sorted(pairs, key=lambda kv: kv[1])]: a stable sort on the group
    index. *)
Fixpoint insert_by_index (p : string * nat) (l : list (string * nat))
  : list (string * nat) :=
  match l with
  | [] => [p]
  | q :: l' =>
      if Nat.leb (snd p) (snd q) then p :: q :: l' else q :: insert_by_index p l'
  end.

Fixpoint sorted_pairs (l : list (string * nat)) : list (string * nat) :=
  match l with
  | [] => []
  | p :: l' => insert_by_index p (sorted_pairs l')
  end.

(** The regex and template of a URLSpec: [urlspec.matcher.regex] and
    [urlspec.matcher._path], or on [AttributeError] [urlspec.regex] and
    [urlspec._path]. *)
Definition regex_and_path (u : URLSpec) : Regex * string :=
  match u with
  | URLSpecMatcher _ m => (matcher_regex m, matcher_path m)
  | URLSpecLegacy _ r p => (r, p)
  end.

(** The parameter-name list [args] of the branch [if regex.groups:]. *)
Definition path_args (regex : Regex) (method : Method) : list string :=
  if truthy (groupindex regex)
  then map fst (sorted_pairs (groupindex regex))
  else tl (parameters method).

(** The last two statements: trim when the path has more than one slash. *)
Definition trim (path : string) : string :=
  if Nat.ltb 1 (PyStr.count "/" path) then PyStr.rstrip "/?*" path else path.

(** The path before the trim: the template with [{name}] substituted for
    its slots when the regex has groups, the template itself otherwise. *)
Definition rendered_path (urlspec : URLSpec) (method : Method)
  : result string :=
  let (regex, path_tpl) := regex_and_path urlspec in
  if negb (Nat.eqb (groups regex) 0)
  then
    let args := path_args regex method in
    let params := map PyStr.braces args in
    py_format path_tpl params
  else inr path_tpl.

Definition tornadopath2openapi (urlspec : URLSpec) (method : Method)
  : result string :=
  rmap trim (rendered_path urlspec method).

Definition regex_of (u : URLSpec) : Regex := fst (regex_and_path u).

Definition path_tpl_of (u : URLSpec) : string := snd (regex_and_path u).

(** ** Attribute access and generators *)

(** [getattr(handler_class, name)], without a default. *)
Definition getattr (h : Handler) (name : string) : result Method :=
  match get name (attributes h) with
  | Some m => inr m
  | None => raise (AttributeError name)
  end.

(** A finite generator run to its end: the items it yields, then either
    normal exhaustion or the exception that stops it. *)
Definition Generator (A : Type) : Type := (list A * option exn)%type.

Definition yield_then {A} (a : A) (g : Generator A) : Generator A :=
  (a :: fst g, snd g).

(** ** Mutation of the caller's dict, with exceptions *)

Module Store.

Definition M (A : Type) : Type := dict yaml -> result A * dict yaml.

Definition ret {A} (a : A) : M A := fun d => (inr a, d).

Definition bind {A B} (m : M A) (k : A -> M B) : M B :=
  fun d =>
    match m d with
    | (inl e, d') => (inl e, d')
    | (inr a, d') => k a d'
    end.

Definition throw {A} (e : exn) : M A := fun d => (inl e, d).

Definition lift {A} (r : result A) : M A := fun d => (r, d).

(** The current contents of [operations]. *)
Definition read : M (dict yaml) := fun d => (inr d, d).

(** [operations.update(other)]. *)
Definition update_with (other : dict yaml) : M unit :=
  fun d => (inr tt, update d other).

(** [for x in g: body(x)], the generator's exception surfacing after the
    items yielded before it. *)
Fixpoint for_each {A} (items : list A) (stop : option exn)
  (body : A -> M unit) : M unit :=
  match items with
  | [] =>
      match stop with
      | None => ret tt
      | Some e => throw e
      end
  | a :: items' => bind (body a) (fun _ => for_each items' stop body)
  end.

End Store.

Notation "x <- m ;; k" := (Store.bind m (fun x => k))
  (at level 61, m at next level, right associativity).

(** ** The plugin, over its collaborators *)

(** The [urlspec] keyword argument of [path_helper]: a URLSpec, a tuple of
    constructor arguments, or [None]. *)
Inductive UrlspecArg : Type :=
| IsURLSpec (u : URLSpec)
| IsTuple (pattern : string) (handler : Handler)
| IsNone.

Section Plugin.

(** [apispec.yaml_utils.PATH_KEYS], in its iteration order. *)
Variable PATH_KEYS : list string.

(** [apispec.yaml_utils.load_yaml_from_docstring]. *)
Variable load_yaml_from_docstring : option string -> dict yaml.

(** [tornado.web.URLSpec(pattern, handler)]; [None] when it raises. *)
Variable URLSpec_new : string -> Handler -> option URLSpec.

(** The loop of [_operations_from_methods] over the remaining verbs. *)
Fixpoint operations_loop (handler : Handler) (verbs : list string)
  : Generator (dict yaml) :=
  match verbs with
  | [] => ([], None)
  | httpmethod :: verbs' =>
      match getattr handler httpmethod with
      | inl e => ([], Some e)
      | inr method =>
          let operation_data := load_yaml_from_docstring (method_doc method) in
          if truthy operation_data
          then yield_then [(httpmethod, YMap operation_data)]
                 (operations_loop handler verbs')
          else operations_loop handler verbs'
      end
  end.

Definition _operations_from_methods (handler : Handler)
  : Generator (dict yaml) :=
  operations_loop handler PATH_KEYS.

(** Truth value of [handler_class.__doc__]. *)
Definition doc_truthy (doc : option string) : bool :=
  match doc with
  | None => false
  | Some s => negb (PyStr.is_empty s)
  end.

Definition _extensions_from_handler (handler : Handler) : result (dict yaml) :=
  if doc_truthy (handler_doc handler)
  then inr (load_yaml_from_docstring (handler_doc handler))
  else raise (AssertionError (Some "expect that a function has a docstring")).

(** [if not isinstance(urlspec, URLSpec)]: the argument is unpacked into
    the URLSpec constructor; unpacking [None] is a [TypeError]. *)
Definition coerce_urlspec (a : UrlspecArg) : result URLSpec :=
  match a with
  | IsURLSpec u => inr u
  | IsTuple pattern handler =>
      match URLSpec_new pattern handler with
      | Some u => inr u
      | None => raise URLSpecInitError
      end
  | IsNone => raise (TypeError "argument after * must be an iterable")
  end.

(** [list(operations.keys())[0]]. *)
Definition first_key (ops : dict yaml) : result string :=
  match keys ops with
  | [] => raise IndexError
  | k :: _ => inr k
  end.

(** The body of [path_helper] after the entry assertion. *)
Definition path_helper_body (urlspec : UrlspecArg) : Store.M string :=
  u <- Store.lift (coerce_urlspec urlspec) ;;
  _ <- (let g := _operations_from_methods (handler_class u) in
        Store.for_each (fst g) (snd g) Store.update_with) ;;
  ops <- Store.read ;;
  if negb (truthy ops) then Store.throw (APISpecError u) else
  name <- Store.lift (first_key ops) ;;
  params_method <- Store.lift (getattr (handler_class u) name) ;;
  extensions <- Store.lift (_extensions_from_handler (handler_class u)) ;;
  _ <- Store.update_with extensions ;;
  Store.lift (tornadopath2openapi u params_method).

(** [path_helper(operations=..., urlspec=...)]: the result and the final
    contents of the caller's [operations]. The [path], [parameters] and
    extra keyword arguments are not read by the body. *)
Definition path_helper (operations : option (dict yaml)) (urlspec : UrlspecArg)
  : result string * option (dict yaml) :=
  match operations with
  | Some (kv :: d) =>
      let (r, ops') := path_helper_body urlspec (kv :: d) in (r, Some ops')
  | _ => (raise (AssertionError None), operations)
  end.

End Plugin.

(** ** Sample collaborators and inputs *)

Module Sample.

(** The seven verbs of [PATH_KEYS]. *)
Definition PATH_KEYS : list string :=
  ["get"; "put"; "post"; "delete"; "options"; "head"; "patch"].

(** A stand-in for the docstring parser: no docstring or an empty one loads
    as the empty dict, any other text as a one-key description. *)
Definition load (doc : option string) : dict yaml :=
  match doc with
  | None => []
  | Some EmptyString => []
  | Some s => [("description", YStr s)]
  end.

(** A stand-in for the URLSpec constructor: a pattern without groups. *)
Definition new (pattern : string) (h : Handler) : option URLSpec :=
  Some (URLSpecMatcher h
          {| matcher_regex := {| groups := 0; groupindex := [] |};
             matcher_path := pattern |}).

Definition unimplemented : Method :=
  {| method_doc := None; parameters := ["self"; "args"; "kwargs"] |}.

(** Tornado's [RequestHandler]: every verb present, none documented. *)
Definition base_attributes : dict Method :=
  map (fun v => (v, unimplemented)) PATH_KEYS.

Definition undocumented : Handler :=
  {| handler_doc := Some "Base handler"; attributes := base_attributes |}.

(** A handler that only has a documented [get]: not a [RequestHandler]
    descendant, which inherits every verb. *)
Definition only_get : Handler :=
  {| handler_doc := None;
     attributes :=
       [("get", {| method_doc := Some "Get a greeting";
                   parameters := ["self"] |})] |}.

(** The handler of the module docstring's example, with a class docstring. *)
Definition hello : Handler :=
  {| handler_doc := Some "Greetings";
     attributes :=
       set "get" {| method_doc := Some "Get a greeting";
                    parameters := ["self"] |} base_attributes |}.

(** [/items/(?P<name>...)/(?P<id>...)], the group index listed in the
    given order. *)
Definition items (gi : dict nat) : URLSpec :=
  URLSpecMatcher undocumented
    {| matcher_regex := {| groups := 2; groupindex := gi |};
       matcher_path := "/items/%s/%s" |}.

(** Two unnamed groups. *)
Definition user_posts : URLSpec :=
  URLSpecLegacy undocumented {| groups := 2; groupindex := [] |}
    "/users/%s/posts/%s".

Definition get_user_post : Method :=
  {| method_doc := None; parameters := ["self"; "user_id"; "post_id"] |}.

(** Three slots for two unnamed groups' worth of names. *)
Definition three_slots : URLSpec :=
  URLSpecMatcher hello
    {| matcher_regex := {| groups := 3; groupindex := [] |};
       matcher_path := "/a/%s/%s/%s" |}.

(** No group, and a literal [%s] in the pattern. *)
Definition percent_literal : URLSpec :=
  URLSpecMatcher hello
    {| matcher_regex := {| groups := 0; groupindex := [] |};
       matcher_path := "/a%sb" |}.

Definition get_only_self : Method :=
  {| method_doc := Some "Get a greeting"; parameters := ["self"] |}.

(** A stand-in parser whose results collide: a method docstring defines
    [tags], one handler docstring defines [tags], another both [get] and
    [tags]. *)
Definition load_tagged (doc : option string) : dict yaml :=
  match doc with
  | None => []
  | Some s =>
      if String.eqb s "method tags" then [("tags", YSeq [YStr "pets"])]
      else if String.eqb s "handler tags" then [("tags", YSeq [YStr "all"])]
      else if String.eqb s "handler get and tags" then
        [("get", YMap [("summary", YStr "from the handler")]);
         ("tags", YSeq [YStr "all"])]
      else []
  end.

Definition tagged (handler_docstring : string) : Handler :=
  {| handler_doc := Some handler_docstring;
     attributes :=
       set "get" {| method_doc := Some "method tags";
                    parameters := ["self"] |} base_attributes |}.

(** What a caller passes as [operations]. *)
Definition given : dict yaml := [("post", YMap [("summary", YStr "given")])].

End Sample.

(** ** Vocabulary of the properties *)

(** Ascending group index. *)
Definition index_le (p q : string * nat) : Prop := snd p <= snd q.

(** What formatting does with [n] slots and any number of arguments. *)
Definition format_outcome (n : nat) (args : list string) (r : result string)
  : Prop :=
  (length args < n -> r = raise (TypeError not_enough_arguments))
  /\ (n < length args -> r = raise (TypeError not_all_converted))
  /\ (length args = n -> exists s, r = inr s).

(** The exceptions of Python's string formatting. *)
Definition formatting_error (e : exn) : Prop :=
  (exists msg, e = TypeError msg) \/ (exists msg, e = ValueError msg).

Definition is_APISpecError (e : exn) : bool :=
  match e with
  | APISpecError _ => true
  | _ => false
  end.

(** No exception of kind [APISpecError] comes out of [r]. *)
Definition no_APISpecError {A} (r : result A) : Prop :=
  forall e, r = inl e -> is_APISpecError e = false.

Section Documented.

Variable load : option string -> dict yaml.

(** The verb is an attribute whose docstring loads to a non-empty dict. *)
Definition documented (h : Handler) (verb : string) : bool :=
  match get verb (attributes h) with
  | Some m => truthy (load (method_doc m))
  | None => false
  end.

(** The one-entry dict the extractor yields for a verb. *)
Definition operation_of (h : Handler) (verb : string) : dict yaml :=
  match get verb (attributes h) with
  | Some m => [(verb, YMap (load (method_doc m)))]
  | None => []
  end.

(** The verb is an attribute of the handler. *)
Definition has_attribute (h : Handler) (verb : string) : Prop :=
  get verb (attributes h) <> None.

End Documented.

(** * Properties *)

(** ** The formatter and the trim on examples *)

Example format_items :
  py_format "/items/%s/%s" ["{name}"; "{id}"] = inr "/items/{name}/{id}".
Proof. reflexivity. Qed.

Example format_percent :
  py_format "100%%/%s" ["a"] = inr "100%/a".
Proof. reflexivity. Qed.

Example format_missing :
  py_format "/%s/%s" ["a"] = raise (TypeError not_enough_arguments).
Proof. reflexivity. Qed.

Example format_extra :
  py_format "/%s" ["a"; "b"] = raise (TypeError not_all_converted).
Proof. reflexivity. Qed.

Example format_width_and_precision :
  py_format "%5s|%-5s|%.1s|%05s" ["ab"; "ab"; "ab"; "ab"]
  = inr "   ab|ab   |a|   ab".
Proof. reflexivity. Qed.

Example format_repr :
  py_format "%r %a %c %ls %5%" ["a'b"; "a\b"; "x"; "y"]
  = inr (String Printf.dquote "a'b"
         ++ String Printf.dquote " 'a\\b' x y %")%string.
Proof. reflexivity. Qed.

Example format_refused :
  py_format "%d" ["a"]
  = raise (TypeError "%d format: a real number is required, not str")
  /\ py_format "%(x)s" ["a"] = raise (TypeError "format requires a mapping")
  /\ py_format "%*s" ["a"] = raise (TypeError "* wants int")
  /\ py_format "%*s" [] = raise (TypeError not_enough_arguments)
  /\ py_format "%y" ["a"]
     = raise (ValueError "unsupported format character")
  /\ py_format "%y" [] = raise (TypeError not_enough_arguments)
  /\ py_format "%c" ["ab"] = raise (TypeError "%c requires int or char")
  /\ py_format "/a%" [] = raise (ValueError "incomplete format")
  /\ py_format "%-5" ["a"] = raise (ValueError "incomplete format")
  /\ py_format "%.l" ["a"] = raise (ValueError "incomplete format").
Proof. repeat split; reflexivity. Qed.

Example trim_examples :
  trim "/a/b/?" = "/a/b" /\ trim "/?" = "/?" /\ trim "/a/b/*" = "/a/b"
  /\ trim "/a/?b/" = "/a/?b".
Proof. repeat split; reflexivity. Qed.


(** ** Trailing-character trim *)

Section Rstrip.

Variable chars : string.

Lemma rstrip_suffix (s : string) :
  exists suffix,
    s = (PyStr.rstrip chars s ++ suffix)%string /\ PyStr.all_in chars suffix = true.
Proof.
  induction s as [|a s [suffix [Heq Hall]]]; simpl.
  - exists EmptyString. split; reflexivity.
  - destruct (PyStr.rstrip chars s) as [|b r] eqn:Hr; simpl.
    + destruct (PyStr.mem a chars) eqn:Ha.
      * exists (String a s). split; [reflexivity|].
        simpl. rewrite Ha. simpl in Heq. rewrite Heq. exact Hall.
      * exists suffix. split; [|exact Hall].
        simpl in Heq. simpl. now rewrite <- Heq.
    + exists suffix. split; [|exact Hall].
      simpl in Heq. simpl. now rewrite <- Heq.
Qed.

Lemma rstrip_last (s : string) (c : ascii) :
  PyStr.last (PyStr.rstrip chars s) = Some c -> PyStr.mem c chars = false.
Proof.
  induction s as [|a s IH]; simpl; [discriminate|].
  destruct (PyStr.rstrip chars s) as [|b r] eqn:Hr; simpl.
  - destruct (PyStr.mem a chars) eqn:Ha; simpl; [discriminate|].
    intros [= <-]. exact Ha.
  - exact IH.
Qed.

End Rstrip.

Lemma trim_many_slashes (path : string) :
  1 < PyStr.count "/" path -> trim path = PyStr.rstrip "/?*" path.
Proof.
  intros H. unfold trim.
  now apply Nat.ltb_lt in H as ->.
Qed.

Lemma trim_one_slash (path : string) :
  PyStr.count "/" path <= 1 -> trim path = path.
Proof.
  intros H. unfold trim.
  destruct (Nat.ltb_spec 1 (PyStr.count "/" path)); [lia|reflexivity].
Qed.

(** ** Sorting the named groups *)

Lemma insert_by_index_perm (p : string * nat) (l : list (string * nat)) :
  Permutation (insert_by_index p l) (p :: l).
Proof.
  induction l as [|q l IH]; simpl; [reflexivity|].
  destruct (Nat.leb (snd p) (snd q)); [reflexivity|].
  rewrite IH. apply perm_swap.
Qed.

Lemma sorted_pairs_perm (l : list (string * nat)) :
  Permutation (sorted_pairs l) l.
Proof.
  induction l as [|p l IH]; simpl; [constructor|].
  rewrite insert_by_index_perm. now constructor.
Qed.

Lemma insert_by_index_sorted (p : string * nat) (l : list (string * nat)) :
  StronglySorted index_le l -> StronglySorted index_le (insert_by_index p l).
Proof.
  induction 1 as [|q l Hs IH Hq]; simpl.
  - repeat constructor.
  - destruct (Nat.leb_spec (snd p) (snd q)) as [Hle|Hlt].
    + constructor; [now constructor|].
      constructor; [exact Hle|].
      eapply Forall_impl; [|exact Hq].
      unfold index_le. intros; lia.
    + constructor; [exact IH|].
      eapply Permutation_Forall.
      * symmetry. apply insert_by_index_perm.
      * constructor; [unfold index_le; lia|exact Hq].
Qed.

Lemma sorted_pairs_sorted (l : list (string * nat)) :
  StronglySorted index_le (sorted_pairs l).
Proof.
  induction l as [|p l IH]; simpl; [constructor|].
  now apply insert_by_index_sorted.
Qed.

(** Two index-sorted lists with the same entries and pairwise distinct
    indices are the same list. *)
Lemma sorted_unique (l1 : list (string * nat)) :
  forall l2,
    StronglySorted index_le l1 -> StronglySorted index_le l2 ->
    Permutation l1 l2 -> NoDup (map snd l1) -> l1 = l2.
Proof.
  induction l1 as [|a l1 IH]; intros l2 S1 S2 P N.
  - now apply Permutation_nil in P.
  - destruct l2 as [|b l2]; [now apply Permutation_sym, Permutation_nil in P|].
    inversion S1 as [|? ? S1' F1]; subst.
    inversion S2 as [|? ? S2' F2]; subst.
    assert (Hab : a = b).
    { assert (Ha : In a (b :: l2)) by (eapply Permutation_in; [exact P|now left]).
      assert (Hb : In b (a :: l1))
        by (eapply Permutation_in; [symmetry; exact P|now left]).
      destruct Ha as [->|Ha]; [reflexivity|].
      destruct Hb as [->|Hb]; [reflexivity|].
      rewrite Forall_forall in F1, F2.
      specialize (F1 _ Hb). specialize (F2 _ Ha). unfold index_le in F1, F2.
      inversion N as [|? ? Hnotin _]; subst.
      exfalso. apply Hnotin.
      replace (snd a) with (snd b) by lia.
      now apply in_map. }
    subst b. f_equal.
    apply IH; trivial.
    + now apply Permutation_cons_inv in P.
    + now inversion N.
Qed.

Lemma sorted_pairs_order_independent (gi gi' : list (string * nat)) :
  Permutation gi gi' -> NoDup (map snd gi) ->
  sorted_pairs gi = sorted_pairs gi'.
Proof.
  intros P N.
  apply sorted_unique; try apply sorted_pairs_sorted.
  - now rewrite !sorted_pairs_perm.
  - eapply Permutation_NoDup; [|exact N].
    apply Permutation_map. symmetry. apply sorted_pairs_perm.
Qed.

(** ** Formatting *)

Lemma rmap_raise {A B} (f : A -> B) (r : result A) (e : exn) :
  r = raise e -> rmap f r = raise e.
Proof. now intros ->. Qed.

Lemma rmap_returns {A B} (f : A -> B) (r : result A) :
  (exists a, r = inr a) -> exists b, rmap f r = inr b.
Proof. intros [a ->]. now exists (f a). Qed.

Lemma rmap_raises {A B} (f : A -> B) (r : result A) (e : exn) :
  rmap f r = inl e -> r = inl e.
Proof. destruct r; simpl; congruence. Qed.

Lemma rmap_returned {A B} (f : A -> B) (r : result A) (b : B) :
  rmap f r = inr b -> exists a, r = inr a.
Proof. destruct r as [e|a]; simpl; [discriminate|]. now exists a. Qed.

(** The formatter on the shapes a template of literal text, [%s] and [%%]
    is made of. *)

Lemma py_format_char (c : ascii) (rest : string) (args : list string) :
  Ascii.eqb c "%" = false ->
  py_format (String c rest) args = rmap (String c) (py_format rest args).
Proof.
  intros H. unfold py_format. cbn [Printf.scan Printf.step].
  rewrite H. reflexivity.
Qed.

Lemma py_format_percent (rest : string) (args : list string) :
  py_format (String "%" (String "%" rest)) args
  = rmap (String "%") (py_format rest args).
Proof. reflexivity. Qed.

Lemma py_format_s (rest : string) (args : list string) :
  py_format (String "%" (String "s" rest)) args
  = match args with
    | [] => raise (TypeError not_enough_arguments)
    | a :: args' => rmap (String.append a) (py_format rest args')
    end.
Proof. destruct args; reflexivity. Qed.

Lemma py_format_literal (lit tpl : string) (args : list string) :
  percent_free lit ->
  py_format (lit ++ tpl)%string args = rmap (String.append lit) (py_format tpl args).
Proof.
  unfold percent_free.
  induction lit as [|c lit IH]; intros H.
  - simpl. now destruct (py_format tpl args).
  - simpl in H. cbn [String.append].
    destruct (Ascii.eqb c "%") eqn:E; [discriminate|].
    rewrite py_format_char by exact E.
    rewrite IH by exact H.
    now destruct (py_format tpl args).
Qed.

Lemma py_format_no_slot (lit : string) :
  percent_free lit -> py_format lit [] = inr lit.
Proof.
  unfold percent_free.
  induction lit as [|c lit IH]; intros H; [reflexivity|].
  simpl in H. destruct (Ascii.eqb c "%") eqn:E; [discriminate|].
  rewrite py_format_char by exact E.
  now rewrite IH.
Qed.

(** Formatting a template of [n] slots with [n] arguments fills the slots
    in order. *)
Lemma py_format_template (pieces : list string) :
  forall (lit : string) (args : list string),
    percent_free lit -> Forall percent_free pieces ->
    length pieces = length args ->
    py_format (template lit pieces) args = inr (filled lit pieces args).
Proof.
  induction pieces as [|lit' pieces IH]; intros lit args Hlit Hall Hlen.
  - destruct args; [|discriminate]. simpl. now apply py_format_no_slot.
  - destruct args as [|a args]; [discriminate|].
    inversion Hall; subst.
    cbn [template filled].
    rewrite py_format_literal by exact Hlit.
    cbn [String.append]. rewrite py_format_s.
    rewrite IH; auto.
Qed.

Lemma format_outcome_rmap (f : string -> string) n args r :
  format_outcome n args r -> format_outcome n args (rmap f r).
Proof.
  intros (H1 & H2 & H3). repeat split; intros H.
  - now apply rmap_raise, H1.
  - now apply rmap_raise, H2.
  - now apply rmap_returns, H3.
Qed.

Lemma py_format_slots_bounded (k : nat) :
  forall (tpl : string) (n : nat) (args : list string),
    String.length tpl <= k ->
    slot_count tpl = Some n -> format_outcome n args (py_format tpl args).
Proof.
  induction k as [|k IH]; intros tpl n args Hk Hn.
  - destruct tpl; [|simpl in Hk; lia].
    injection Hn as <-. destruct args; repeat split; simpl; intros H;
      try lia; try reflexivity; try discriminate.
    now exists EmptyString.
  - destruct tpl as [|c rest].
    { injection Hn as <-. destruct args; repeat split; simpl; intros H;
        try lia; try reflexivity; try discriminate.
      now exists EmptyString. }
    simpl in Hk, Hn.
    destruct (Ascii.eqb c "%") eqn:E.
    + apply Ascii.eqb_eq in E as ->.
      destruct rest as [|conv rest']; [discriminate|].
      simpl in Hk.
      destruct (Ascii.eqb conv "%") eqn:E1.
      * apply Ascii.eqb_eq in E1 as ->. rewrite py_format_percent.
        apply format_outcome_rmap, IH; [lia|exact Hn].
      * destruct (Ascii.eqb conv "s") eqn:E2; [|discriminate].
        apply Ascii.eqb_eq in E2 as ->. rewrite py_format_s.
        destruct (slot_count rest') as [n'|] eqn:Hn'; [|discriminate].
        injection Hn as <-.
        destruct args as [|a args].
        -- repeat split; simpl; intros H; try lia; reflexivity.
        -- destruct (IH rest' n' args ltac:(lia) Hn') as (H1 & H2 & H3).
           repeat split; simpl; intros H.
           ++ apply rmap_raise, H1; lia.
           ++ apply rmap_raise, H2; lia.
           ++ apply rmap_returns, H3; lia.
    + rewrite py_format_char by exact E.
      apply format_outcome_rmap, IH; [lia|exact Hn].
Qed.

Lemma py_format_slots (tpl : string) (n : nat) (args : list string) :
  slot_count tpl = Some n -> format_outcome n args (py_format tpl args).
Proof. now apply (py_format_slots_bounded (String.length tpl)). Qed.

(** ** Exceptions of each step *)

(** The pass over any template refuses it with a [TypeError] or a
    [ValueError] only. *)
Lemma step_invalid (st : Printf.state) (c : ascii) (e : exn) :
  Printf.step st c = Printf.Stop (Printf.Invalid e)
  \/ Printf.step st c = Printf.Emit (Printf.Invalid e) ->
  formatting_error e.
Proof.
  unfold formatting_error.
  destruct st; cbn [Printf.step];
    unfold Printf.at_flags, Printf.at_width, Printf.at_dot, Printf.at_length,
      Printf.at_conversion;
    repeat match goal with
           | |- context [if ?b then _ else _] => destruct b
           | |- context [match Printf.grow ?l ?n ?c with _ => _ end] =>
               destruct (Printf.grow l n c)
           end;
    intros [H|H]; try discriminate; injection H as <-; eauto.
Qed.

Lemma scan_invalid (tpl : string) :
  forall (st : Printf.state) (e : exn),
    In (Printf.Invalid e) (Printf.scan st tpl) -> formatting_error e.
Proof.
  induction tpl as [|c rest IH]; intros st e; cbn [Printf.scan].
  - destruct st; simpl; intros H; try contradiction;
      destruct H as [[= <-]|[]]; right; eauto.
  - destruct (Printf.step st c) as [st'|it|it] eqn:Hs.
    + apply IH.
    + intros [->|H]; [|now apply IH in H].
      apply (step_invalid st c). now right.
    + intros [->|[]]. apply (step_invalid st c). now left.
Qed.

Lemma convert_raises (spec : Printf.Spec) (arg : string) (e : exn) :
  Printf.convert spec arg = inl e -> formatting_error e.
Proof.
  unfold Printf.convert, formatting_error, raise.
  repeat match goal with
         | |- context [if ?b then _ else _] => destruct b
         end;
    intros H; try discriminate; injection H as <-; eauto.
Qed.

Lemma run_raises (items : list Printf.item) :
  forall (args : list string) (e : exn),
    (forall e', In (Printf.Invalid e') items -> formatting_error e') ->
    Printf.run items args = inl e -> formatting_error e.
Proof.
  unfold formatting_error.
  induction items as [|it items IH]; intros args e Hinv; cbn [Printf.run].
  - destruct args; [discriminate|]. intros [= <-]. eauto.
  - assert (Hinv' : forall e', In (Printf.Invalid e') items ->
                               formatting_error e')
      by (intros e' He'; apply Hinv; now right).
    destruct it as [c|spec| |e0].
    + intros H. apply rmap_raises in H. now apply (IH args).
    + destruct args as [|a args]; [intros [= <-]; eauto|].
      destruct (Printf.convert spec a) as [e1|text] eqn:Hc.
      * intros [= <-]. now apply convert_raises in Hc.
      * intros H. apply rmap_raises in H. now apply (IH args).
    + destruct args; intros [= <-]; eauto.
    + intros [= <-]. apply Hinv. now left.
Qed.

Lemma py_format_raises (tpl : string) (args : list string) (e : exn) :
  py_format tpl args = inl e -> formatting_error e.
Proof.
  unfold py_format. apply run_raises.
  intros e'. apply scan_invalid.
Qed.

(** A template that formats takes exactly the arguments it is given. *)
Lemma run_returns_slots (items : list Printf.item) :
  forall (args : list string) (text : string),
    Printf.run items args = inr text ->
    Printf.count_slots items = Some (length args).
Proof.
  induction items as [|it items IH]; intros args text;
    cbn [Printf.run Printf.count_slots].
  - destruct args; [reflexivity|discriminate].
  - destruct it as [c|spec| |e0].
    + intros H. apply rmap_returned in H as [t H]. now apply (IH args t).
    + destruct args as [|a args]; [discriminate|].
      destruct (Printf.convert spec a) as [e1|t1]; [discriminate|].
      intros H. apply rmap_returned in H as [t H].
      rewrite (IH args t H). reflexivity.
    + destruct args; discriminate.
    + discriminate.
Qed.

Lemma py_format_returns_slots (tpl : string) (args : list string)
  (text : string) :
  py_format tpl args = inr text -> positional_slots tpl = Some (length args).
Proof. apply run_returns_slots. Qed.

Lemma no_APISpecError_rmap {A B} (f : A -> B) (r : result A) :
  no_APISpecError r -> no_APISpecError (rmap f r).
Proof.
  intros H e. destruct r as [e'|a]; simpl; [|discriminate].
  intros [= <-]. now apply H.
Qed.

Lemma py_format_no_APISpecError (tpl : string) (args : list string) :
  no_APISpecError (py_format tpl args).
Proof.
  intros e H. apply py_format_raises in H as [[msg ->]|[msg ->]]; reflexivity.
Qed.

Lemma tornadopath2openapi_no_APISpecError (u : URLSpec) (m : Method) :
  no_APISpecError (tornadopath2openapi u m).
Proof.
  unfold tornadopath2openapi, rendered_path.
  apply no_APISpecError_rmap.
  destruct (regex_and_path u) as [regex tpl].
  destruct (negb (Nat.eqb (groups regex) 0)); [|intros e; discriminate].
  apply py_format_no_APISpecError.
Qed.

(** ** Dict updates *)

Section DictFacts.

Context {V : Type}.

Lemma get_set_same (k : string) (v : V) (d : dict V) :
  get k (set k v d) = Some v.
Proof.
  induction d as [|[k' v'] d IH]; simpl.
  - now rewrite String.eqb_refl.
  - destruct (String.eqb k k') eqn:E; simpl; now rewrite E.
Qed.

Lemma get_set_other (k k' : string) (v : V) (d : dict V) :
  k' <> k -> get k' (set k v d) = get k' d.
Proof.
  intros Hne.
  induction d as [|[k0 v0] d IH]; simpl.
  - now apply String.eqb_neq in Hne as ->.
  - destruct (String.eqb k k0) eqn:E; simpl.
    + apply String.eqb_eq in E as <-.
      now apply String.eqb_neq in Hne as ->.
    + now rewrite IH.
Qed.

Lemma get_absent (k : string) (d : dict V) :
  ~ In k (keys d) -> get k d = None.
Proof.
  induction d as [|[k' v'] d IH]; simpl; [reflexivity|].
  intros H. destruct (String.eqb_spec k k') as [->|_].
  - exfalso. apply H. now left.
  - apply IH. intros Hin. apply H. now right.
Qed.

Lemma get_update_absent (k : string) (other : dict V) :
  forall d, get k other = None -> get k (update d other) = get k d.
Proof.
  unfold update.
  induction other as [|[k1 v1] other IH]; intros d; simpl; [reflexivity|].
  destruct (String.eqb_spec k k1) as [->|Hne]; [discriminate|].
  intros H. rewrite IH by exact H. now apply get_set_other.
Qed.

(** The value a key has in [other] is the value it has after
    [d.update(other)], whatever [d] held. *)
Lemma get_update_present (k : string) (v : V) (other : dict V) :
  forall d,
    NoDup (keys other) -> get k other = Some v ->
    get k (update d other) = Some v.
Proof.
  induction other as [|[k1 v1] other IH]; intros d N; simpl; [discriminate|].
  inversion N as [|? ? Hnotin N']; subst.
  destruct (String.eqb_spec k k1) as [->|Hne].
  - intros [= ->].
    change (get k1 (update (set k1 v d) other) = Some v).
    rewrite get_update_absent by now apply get_absent.
    apply get_set_same.
  - intros H. now apply (IH (set k1 v1 d)).
Qed.

Lemma truthy_set (k : string) (v : V) (d : dict V) : truthy (set k v d) = true.
Proof.
  destruct d as [|[k' v'] d]; simpl; [reflexivity|].
  now destruct (String.eqb k k').
Qed.

Lemma truthy_update (other : dict V) :
  forall d, truthy d = true -> truthy (update d other) = true.
Proof.
  unfold update.
  induction other as [|[k v] other IH]; intros d H; simpl; [exact H|].
  apply IH, truthy_set.
Qed.

Lemma truthy_updates (items : list (dict V)) :
  forall d, truthy d = true -> truthy (fold_left update items d) = true.
Proof.
  induction items as [|o items IH]; intros d H; simpl; [exact H|].
  now apply IH, truthy_update.
Qed.

End DictFacts.

Lemma for_each_update (items : list (dict yaml)) (stop : option exn) :
  forall d,
    Store.for_each items stop Store.update_with d
    = (match stop with None => inr tt | Some e => inl e end,
       fold_left update items d).
Proof.
  induction items as [|o items IH]; intros d; simpl.
  - now destruct stop.
  - unfold Store.bind. simpl. apply IH.
Qed.

(** ** The operation extractor *)

Section Extractor.

Variable PATH_KEYS : list string.
Variable load : option string -> dict yaml.

Local Abbreviation loop := (operations_loop load).

Lemma operations_loop_present (h : Handler) (verbs : list string) :
  (forall v, In v verbs -> has_attribute h v) ->
  loop h verbs = (map (operation_of load h) (filter (documented load h) verbs), None).
Proof.
  unfold has_attribute, documented, operation_of, getattr.
  induction verbs as [|v verbs IH]; intros H; simpl; [reflexivity|].
  unfold getattr.
  destruct (get v (attributes h)) as [m|] eqn:Hm.
  - rewrite IH by (intros w Hw; apply H; now right).
    destruct (truthy (load (method_doc m))); [|reflexivity].
    unfold yield_then. simpl. now rewrite Hm.
  - exfalso. apply (H v); [now left|exact Hm].
Qed.

Lemma operations_loop_absent (h : Handler) (pre post : list string)
  (v : string) :
  (forall w, In w pre -> has_attribute h w) ->
  get v (attributes h) = None ->
  loop h (pre ++ v :: post)
  = (map (operation_of load h) (filter (documented load h) pre),
     Some (AttributeError v)).
Proof.
  unfold has_attribute, documented, operation_of.
  induction pre as [|w pre IH]; intros H Hv; simpl.
  - unfold getattr. now rewrite Hv.
  - unfold getattr.
    destruct (get w (attributes h)) as [m|] eqn:Hm.
    + rewrite IH; [|intros x Hx; apply H; now right|exact Hv].
      destruct (truthy (load (method_doc m))); [|reflexivity].
      unfold yield_then. simpl. now rewrite Hm.
    + exfalso. apply (H w); [now left|exact Hm].
Qed.

Lemma operations_loop_attribute_order (h h' : Handler) (verbs : list string) :
  (forall v, get v (attributes h) = get v (attributes h')) ->
  loop h verbs = loop h' verbs.
Proof.
  intros H. induction verbs as [|v verbs IH]; simpl; [reflexivity|].
  unfold getattr. now rewrite H, IH.
Qed.

(** The only exception the extractor raises is a failed attribute lookup. *)
Lemma operations_loop_stop (h : Handler) (verbs : list string) (e : exn) :
  snd (loop h verbs) = Some e -> exists v, e = AttributeError v.
Proof.
  induction verbs as [|v verbs IH]; simpl; [discriminate|].
  unfold getattr.
  destruct (get v (attributes h)) as [m|].
  - destruct (truthy (load (method_doc m))); exact IH.
  - simpl. intros [= <-]. now exists v.
Qed.

End Extractor.

(** ** The entry point *)

Section EntryPoint.

Variable PATH_KEYS : list string.
Variable load : option string -> dict yaml.
Variable new : string -> Handler -> option URLSpec.

Local Abbreviation extract := (_operations_from_methods PATH_KEYS load).
Local Abbreviation extensions := (_extensions_from_handler load).
Local Abbreviation coerce := (coerce_urlspec new).
Local Abbreviation helper := (path_helper PATH_KEYS load new).

Lemma path_helper_asserts (operations : option (dict yaml))
  (arg : UrlspecArg) :
  operations = None \/ operations = Some [] ->
  helper operations arg = (raise (AssertionError None), operations).
Proof. now intros [-> | ->]. Qed.

(** A call that passes every step up to the normalizer: its result is the
    normalizer's, and [operations] holds the extracted operations and then
    the handler's extensions. *)
Lemma path_helper_reaches_normalizer
  (ops : dict yaml) (arg : UrlspecArg) (u : URLSpec)
  (name : string) (m : Method) (ext : dict yaml) :
  truthy ops = true ->
  coerce arg = inr u ->
  snd (extract (handler_class u)) = None ->
  first_key (fold_left update (fst (extract (handler_class u))) ops)
  = inr name ->
  getattr (handler_class u) name = inr m ->
  extensions (handler_class u) = inr ext ->
  helper (Some ops) arg
  = (tornadopath2openapi u m,
     Some (update
             (fold_left update (fst (extract (handler_class u))) ops) ext)).
Proof.
  intros Hops Hu Hstop Hkey Hm Hext.
  destruct ops as [|kv d]; [discriminate|].
  unfold path_helper, path_helper_body, Store.bind, Store.lift, Store.read,
    Store.throw.
  rewrite Hu, for_each_update, Hstop.
  rewrite (truthy_updates _ _ Hops). simpl negb. cbv iota.
  rewrite Hkey, Hm, Hext.
  reflexivity.
Qed.

(** A call that returns a path got it from the normalizer, run on the
    coerced URLSpec and one of the handler's attributes. *)
Lemma path_helper_returns (operations : option (dict yaml))
  (arg : UrlspecArg) (p : string) (final : option (dict yaml)) :
  helper operations arg = (inr p, final) ->
  exists u m, coerce arg = inr u /\ tornadopath2openapi u m = inr p.
Proof.
  destruct operations as [[|kv d]|]; simpl; try discriminate.
  unfold path_helper_body, Store.bind, Store.lift, Store.read, Store.throw.
  destruct (coerce arg) as [e|u]; [discriminate|].
  rewrite for_each_update.
  destruct (snd (extract (handler_class u))); [discriminate|].
  destruct (negb _); [discriminate|].
  destruct (first_key _) as [e|name]; [discriminate|].
  destruct (getattr _ name) as [e|m]; [discriminate|].
  destruct (extensions _) as [e|ext]; [discriminate|].
  unfold Store.update_with.
  intros [= H _]. now exists u, m.
Qed.

Lemma path_helper_no_APISpecError (operations : option (dict yaml))
  (arg : UrlspecArg) :
  no_APISpecError (fst (helper operations arg)).
Proof.
  intros e.
  destruct operations as [[|kv d]|]; simpl; try (now intros [= <-]).
  unfold path_helper_body, Store.bind, Store.lift, Store.read, Store.throw.
  destruct (coerce arg) as [e'|u] eqn:Hu.
  { simpl. intros [= <-].
    destruct arg as [u|pat h|]; simpl in Hu; try discriminate.
    - destruct (new pat h); [discriminate|]. now injection Hu as <-.
    - now injection Hu as <-. }
  rewrite for_each_update.
  destruct (snd (extract (handler_class u))) as [e'|] eqn:Hstop.
  { simpl. intros [= <-].
    apply operations_loop_stop in Hstop as [v ->]. reflexivity. }
  rewrite (truthy_updates _ (kv :: d) eq_refl). simpl negb. cbv iota.
  destruct (first_key _) as [e'|name] eqn:Hk.
  { simpl. intros [= <-]. unfold first_key in Hk.
    destruct (keys _); [|discriminate]. now injection Hk as <-. }
  destruct (getattr _ name) as [e'|m] eqn:Hm.
  { simpl. intros [= <-]. unfold getattr in Hm.
    destruct (get name _); [discriminate|]. now injection Hm as <-. }
  destruct (extensions _) as [e'|ext] eqn:Hext.
  { simpl. intros [= <-]. unfold _extensions_from_handler in Hext.
    destruct (doc_truthy _); [discriminate|]. now injection Hext as <-. }
  simpl. apply tornadopath2openapi_no_APISpecError.
Qed.

End EntryPoint.

(** * The path normalizer *)

Lemma rendered_with_groups (u : URLSpec) (method : Method) :
  groups (regex_of u) <> 0 ->
  rendered_path u method
  = py_format (path_tpl_of u)
      (map PyStr.braces (path_args (regex_of u) method)).
Proof.
  unfold rendered_path, regex_of, path_tpl_of.
  destruct (regex_and_path u) as [regex tpl]; simpl.
  intros H. now apply Nat.eqb_neq in H as ->.
Qed.

Lemma rendered_without_groups (u : URLSpec) (method : Method) :
  groups (regex_of u) = 0 -> rendered_path u method = inr (path_tpl_of u).
Proof.
  unfold rendered_path, regex_of, path_tpl_of.
  destruct (regex_and_path u) as [regex tpl]; simpl.
  now intros ->.
Qed.

Lemma path_args_named (regex : Regex) (method : Method) :
  groupindex regex <> [] ->
  path_args regex method = map fst (sorted_pairs (groupindex regex)).
Proof.
  unfold path_args. now destruct (groupindex regex).
Qed.

Lemma path_args_unnamed (regex : Regex) (method : Method) :
  groupindex regex = [] -> path_args regex method = tl (parameters method).
Proof.
  unfold path_args. now intros ->.
Qed.

(** C2. When the regex has capturing groups and a non-empty group index,
    the normalizer fills the template's slots with the group names sorted by
    ascending group index: the name list is a reordering of the group index
    that is sorted on the index, a template of as many slots as names comes
    out with [{name}] in each slot in that order, and the listing order of
    the group index does not matter when the indices are distinct. With
    [{name: 1, id: 2}] over ["/items/%s/%s"] the path is
    ["/items/{name}/{id}"], in either listing order. *)
Theorem C2_named_groups_by_index :
  (forall (u : URLSpec) (method : Method),
      groups (regex_of u) <> 0 ->
      groupindex (regex_of u) <> [] ->
      let gi := groupindex (regex_of u) in
      let names := map fst (sorted_pairs gi) in
      tornadopath2openapi u method
      = rmap trim (py_format (path_tpl_of u) (map PyStr.braces names))
      /\ Permutation (sorted_pairs gi) gi
      /\ StronglySorted index_le (sorted_pairs gi)
      /\ (forall lit pieces,
             path_tpl_of u = template lit pieces ->
             percent_free lit -> Forall percent_free pieces ->
             length pieces = length gi ->
             tornadopath2openapi u method
             = inr (trim (filled lit pieces (map PyStr.braces names))))
      /\ (forall gi',
             Permutation gi gi' -> NoDup (map snd gi) ->
             map fst (sorted_pairs gi') = names))
  /\ (forall method,
         tornadopath2openapi (Sample.items [("name", 1); ("id", 2)]) method
         = inr "/items/{name}/{id}"
         /\ tornadopath2openapi (Sample.items [("id", 2); ("name", 1)]) method
            = inr "/items/{name}/{id}").
Proof.
  split; [|intros method; split; reflexivity].
  intros u method Hg Hgi gi names.
  assert (Hout : tornadopath2openapi u method
                 = rmap trim (py_format (path_tpl_of u)
                                (map PyStr.braces names))).
  { unfold tornadopath2openapi.
    now rewrite rendered_with_groups, path_args_named. }
  split; [exact Hout|].
  split; [apply sorted_pairs_perm|].
  split; [apply sorted_pairs_sorted|].
  split.
  - intros lit pieces Htpl Hlit Hpieces Hlen.
    rewrite Hout, Htpl, py_format_template; trivial.
    unfold names. rewrite !length_map, Hlen.
    symmetry. apply Permutation_length, sorted_pairs_perm.
  - intros gi' P N. unfold names.
    now rewrite (sorted_pairs_order_independent gi gi').
Qed.

(** C3. When the regex has capturing groups and no named group, the names
    are the method's declared parameter names in declaration order without
    the first one, and a template of as many slots comes out with [{name}]
    in each slot in that order. With parameters [(self, user_id, post_id)]
    over ["/users/%s/posts/%s"] the path is
    ["/users/{user_id}/posts/{post_id}"]. *)
Theorem C3_unnamed_groups_use_method_parameters :
  (forall (u : URLSpec) (method : Method),
      groups (regex_of u) <> 0 ->
      groupindex (regex_of u) = [] ->
      let names := tl (parameters method) in
      tornadopath2openapi u method
      = rmap trim (py_format (path_tpl_of u) (map PyStr.braces names))
      /\ (forall lit pieces,
             path_tpl_of u = template lit pieces ->
             percent_free lit -> Forall percent_free pieces ->
             length pieces = length names ->
             tornadopath2openapi u method
             = inr (trim (filled lit pieces (map PyStr.braces names)))))
  /\ tornadopath2openapi Sample.user_posts Sample.get_user_post
     = inr "/users/{user_id}/posts/{post_id}".
Proof.
  split; [|reflexivity].
  intros u method Hg Hgi names.
  assert (Hout : tornadopath2openapi u method
                 = rmap trim (py_format (path_tpl_of u)
                                (map PyStr.braces names))).
  { unfold tornadopath2openapi.
    now rewrite rendered_with_groups, path_args_unnamed. }
  split; [exact Hout|].
  intros lit pieces Htpl Hlit Hpieces Hlen.
  rewrite Hout, Htpl, py_format_template; trivial.
  now rewrite length_map.
Qed.

(** C4. The normalizer ends by trimming the rendered path: a path with more
    than one ['/'] loses its longest suffix made of ['/'], ['?'] and ['*']
    (what is cut consists of these characters and what is left does not end
    with one), a path with at most one ['/'] is returned as it is; with no
    capturing group the result is the template itself after this trim.
    ["/a/b/?"] becomes ["/a/b"], ["/?"] stays ["/?"]. *)
Theorem C4_trailing_trim :
  (forall u method,
      tornadopath2openapi u method = rmap trim (rendered_path u method))
  /\ (forall path,
         1 < PyStr.count "/" path ->
         exists suffix,
           path = (trim path ++ suffix)%string
           /\ PyStr.all_in "/?*" suffix = true
           /\ forall c, PyStr.last (trim path) = Some c ->
                        PyStr.mem c "/?*" = false)
  /\ (forall path, PyStr.count "/" path <= 1 -> trim path = path)
  /\ (forall u method,
         groups (regex_of u) = 0 ->
         tornadopath2openapi u method = inr (trim (path_tpl_of u)))
  /\ trim "/a/b/?" = "/a/b"
  /\ trim "/?" = "/?".
Proof.
  split; [reflexivity|].
  split.
  { intros path H. rewrite (trim_many_slashes path H).
    destruct (rstrip_suffix "/?*" path) as [suffix [Heq Hall]].
    exists suffix. repeat split; trivial.
    intros c. apply rstrip_last. }
  split; [exact trim_one_slash|].
  split; [|split; reflexivity].
  intros u method H. unfold tornadopath2openapi.
  now rewrite rendered_without_groups.
Qed.

(** C10. The method is read only when the regex has groups and none is
    named: with a non-empty group index, or with no capturing group, any two
    methods give the same result. The normalizer takes the URLSpec and the
    method and nothing else; accordingly two calls of [path_helper] on the
    same URLSpec that return a path return the same one, whatever the two
    operations mappings hold. *)
Theorem C10_method_is_a_fallback :
  (forall (u : URLSpec) (m1 m2 : Method),
      groupindex (regex_of u) <> [] \/ groups (regex_of u) = 0 ->
      tornadopath2openapi u m1 = tornadopath2openapi u m2)
  /\ (forall PATH_KEYS load new (u : URLSpec) ops1 ops2 p1 p2 final1 final2,
         groupindex (regex_of u) <> [] \/ groups (regex_of u) = 0 ->
         path_helper PATH_KEYS load new ops1 (IsURLSpec u)
         = (inr p1, final1) ->
         path_helper PATH_KEYS load new ops2 (IsURLSpec u)
         = (inr p2, final2) ->
         p1 = p2).
Proof.
  assert (H : forall u m1 m2,
             groupindex (regex_of u) <> [] \/ groups (regex_of u) = 0 ->
             tornadopath2openapi u m1 = tornadopath2openapi u m2).
  { intros u m1 m2 Hu. unfold tornadopath2openapi. f_equal.
    destruct (Nat.eq_dec (groups (regex_of u)) 0) as [Hz|Hnz].
    - now rewrite !rendered_without_groups.
    - destruct Hu as [Hgi|Hz]; [|contradiction].
      now rewrite !rendered_with_groups, !path_args_named. }
  split; [exact H|].
  intros PATH_KEYS load new u ops1 ops2 p1 p2 final1 final2 Hu H1 H2.
  apply path_helper_returns in H1 as (u1 & m1 & [= <-] & H1).
  apply path_helper_returns in H2 as (u2 & m2 & [= <-] & H2).
  rewrite (H u m1 m2 Hu) in H1. congruence.
Qed.

(** C9. The substitution runs when the regex has capturing groups. Then,
    whenever the number of positional slots of the template (its conversion
    specifiers other than [%%]) is not the number of derived names, more
    slots than names or any other disagreement, formatting fails with
    Python's own [TypeError] or [ValueError] and the normalizer returns that
    exception as it is; for a template of literal text, [%s] and [%%] it is
    the [TypeError] "not enough arguments" when the slots are more and "not
    all arguments converted" when they are fewer. [path_helper] hands the
    same exception to its caller when the call gets as far as the
    normalizer. *)
Theorem C9_slot_mismatch_is_a_formatting_error :
  forall (u : URLSpec) (method : Method),
    groups (regex_of u) <> 0 ->
    let names := path_args (regex_of u) method in
    positional_slots (path_tpl_of u) <> Some (length names) ->
    (exists e,
        tornadopath2openapi u method = raise e /\ formatting_error e)
    /\ (forall n,
           slot_count (path_tpl_of u) = Some n ->
           (length names < n ->
            tornadopath2openapi u method
            = raise (TypeError not_enough_arguments))
           /\ (n < length names ->
               tornadopath2openapi u method
               = raise (TypeError not_all_converted)))
    /\ (forall PATH_KEYS load new ops arg name ext,
           truthy ops = true ->
           coerce_urlspec new arg = inr u ->
           snd (_operations_from_methods PATH_KEYS load (handler_class u))
           = None ->
           first_key
             (fold_left update
                (fst (_operations_from_methods PATH_KEYS load
                        (handler_class u))) ops)
           = inr name ->
           getattr (handler_class u) name = inr method ->
           _extensions_from_handler load (handler_class u) = inr ext ->
           exists e,
             fst (path_helper PATH_KEYS load new (Some ops) arg) = raise e
             /\ tornadopath2openapi u method = raise e
             /\ formatting_error e).
Proof.
  intros u method Hg names Hslots.
  assert (Hout : tornadopath2openapi u method
                 = rmap trim (py_format (path_tpl_of u)
                                (map PyStr.braces names))).
  { unfold tornadopath2openapi. now rewrite rendered_with_groups. }
  assert (Hfails : exists e,
             tornadopath2openapi u method = raise e /\ formatting_error e).
  { rewrite Hout.
    destruct (py_format (path_tpl_of u) (map PyStr.braces names))
      as [e|text] eqn:Hf.
    - exists e. split; [reflexivity|].
      now apply py_format_raises in Hf.
    - apply py_format_returns_slots in Hf.
      rewrite length_map in Hf. contradiction. }
  split; [exact Hfails|]. split.
  - intros n Hn.
    destruct (py_format_slots (path_tpl_of u) n (map PyStr.braces names) Hn)
      as (Hfew & Hmany & _).
    rewrite length_map in Hfew, Hmany.
    split; intros H; rewrite Hout.
    + now apply rmap_raise, Hfew.
    + now apply rmap_raise, Hmany.
  - intros PATH_KEYS load new ops arg name ext Hops Hu Hstop Hkey Hm Hext.
    destruct Hfails as (e & He & Hkind).
    exists e.
    rewrite (path_helper_reaches_normalizer PATH_KEYS load new ops arg u name
               method ext Hops Hu Hstop Hkey Hm Hext).
    repeat split; trivial.
Qed.

(** * Handler metadata and the extractor *)

(** C8. [_extensions_from_handler] fails its assertion, with an
    [AssertionError] and no other exception, when the handler's docstring is
    absent or empty; with a non-empty docstring it returns what the
    docstring parser returns for it. *)
Theorem C8_extensions_need_a_docstring :
  forall (load : option string -> dict yaml) (h : Handler),
    (handler_doc h = None \/ handler_doc h = Some EmptyString ->
     _extensions_from_handler load h
     = raise (AssertionError (Some "expect that a function has a docstring")))
    /\ (forall s,
           handler_doc h = Some s -> s <> EmptyString ->
           _extensions_from_handler load h = inr (load (Some s))).
Proof.
  intros load h. unfold _extensions_from_handler. split.
  - now intros [-> | ->].
  - intros s -> Hs. destruct s; [contradiction|reflexivity].
Qed.

(** C6, as the code has it. For a handler that has every recognized verb as
    an attribute, the extractor raises nothing and yields one entry per verb
    whose docstring loads to a non-empty dict, in the order of the verb
    enumeration; the order of the handler's own attributes plays no part. A
    recognized verb that is not an attribute of the handler is not skipped:
    the lookup raises [AttributeError] there, after the entries of the verbs
    before it. *)
Theorem C6_extractor_follows_the_verb_enumeration :
  forall (PATH_KEYS : list string) (load : option string -> dict yaml)
         (h : Handler),
    ((forall v, In v PATH_KEYS -> has_attribute h v) ->
     _operations_from_methods PATH_KEYS load h
     = (map (operation_of load h) (filter (documented load h) PATH_KEYS),
        None))
    /\ (forall pre v post,
           PATH_KEYS = pre ++ v :: post ->
           (forall w, In w pre -> has_attribute h w) ->
           get v (attributes h) = None ->
           _operations_from_methods PATH_KEYS load h
           = (map (operation_of load h) (filter (documented load h) pre),
              Some (AttributeError v)))
    /\ (forall h',
           (forall v, get v (attributes h) = get v (attributes h')) ->
           _operations_from_methods PATH_KEYS load h
           = _operations_from_methods PATH_KEYS load h').
Proof.
  intros PATH_KEYS load h. unfold _operations_from_methods.
  split; [apply operations_loop_present|].
  split.
  - intros pre v post ->. apply operations_loop_absent.
  - intros h'. apply operations_loop_attribute_order.
Qed.

(** C6 as stated does not hold: on a handler whose only attribute is a
    documented [get], the extractor yields the [get] operation and then
    raises [AttributeError] for [put] instead of skipping it. *)
Lemma C6_absent_verb_raises :
  _operations_from_methods Sample.PATH_KEYS Sample.load Sample.only_get
  = ([[("get", YMap [("description", YStr "Get a greeting")])]],
     Some (AttributeError "put"))
  /\ snd (_operations_from_methods Sample.PATH_KEYS Sample.load
            Sample.only_get) <> None.
Proof. split; [reflexivity|discriminate]. Qed.

(** * The entry point *)

(** C5. [path_helper] asserts [operations] first: when it is [None] or
    empty the call raises [AssertionError] whatever the URLSpec argument is,
    and [operations] is left as it was; and no call at all raises
    [APISpecError], so the check for operations still empty after the
    extraction never fires. *)
Theorem C5_entry_assertion_shadows_the_empty_check :
  forall (PATH_KEYS : list string) (load : option string -> dict yaml)
         (new : string -> Handler -> option URLSpec),
    (forall operations arg,
        operations = None \/ operations = Some [] ->
        path_helper PATH_KEYS load new operations arg
        = (raise (AssertionError None), operations))
    /\ (forall operations arg u,
           fst (path_helper PATH_KEYS load new operations arg)
           <> raise (APISpecError u)).
Proof.
  intros PATH_KEYS load new. split.
  - apply path_helper_asserts.
  - intros operations arg u H.
    now apply path_helper_no_APISpecError in H.
Qed.

(** The merge is one level deep: a key of the handler's metadata becomes an
    entry of [operations] next to the verbs, and the description stored
    under a verb keeps its own value for that key. *)
Example merge_is_shallow :
  snd (path_helper Sample.PATH_KEYS Sample.load_tagged Sample.new
         (Some Sample.given)
         (IsTuple "/pets" (Sample.tagged "handler tags")))
  = Some [("post", YMap [("summary", YStr "given")]);
          ("get", YMap [("tags", YSeq [YStr "pets"])]);
          ("tags", YSeq [YStr "all"])].
Proof. reflexivity. Qed.

(** C1, at a call the claim is about: empty [operations] and a handler with
    no documented verb. The call raises [AssertionError], not
    [APISpecError]; [operations] stays empty. The statements after the
    assertion, run on the same inputs, do raise [APISpecError] for the
    URLSpec and leave [operations] empty. *)
Theorem C1_empty_operations_stop_at_the_assertion :
  path_helper Sample.PATH_KEYS Sample.load Sample.new (Some [])
    (IsTuple "/hello" Sample.undocumented)
  = (raise (AssertionError None), Some [])
  /\ (exists u,
         Sample.new "/hello" Sample.undocumented = Some u
         /\ path_helper_body Sample.PATH_KEYS Sample.load Sample.new
              (IsTuple "/hello" Sample.undocumented) []
            = (raise (APISpecError u), [])).
Proof.
  split; [reflexivity|].
  eexists. split; reflexivity.
Qed.

(** * The theorems at sample inputs *)

Lemma C2_named_groups_by_index_at_items :
  groups (regex_of (Sample.items [("id", 2); ("name", 1)])) <> 0
  /\ groupindex (regex_of (Sample.items [("id", 2); ("name", 1)])) <> []
  /\ tornadopath2openapi (Sample.items [("id", 2); ("name", 1)])
       Sample.unimplemented
     = inr "/items/{name}/{id}"
  /\ map fst (sorted_pairs [("name", 1); ("id", 2)]) = ["name"; "id"].
Proof.
  assert (Hg : groups (regex_of (Sample.items [("id", 2); ("name", 1)])) <> 0)
    by (simpl; lia).
  assert (Hgi : groupindex (regex_of (Sample.items [("id", 2); ("name", 1)]))
                <> []) by (simpl; discriminate).
  destruct (proj1 C2_named_groups_by_index
              (Sample.items [("id", 2); ("name", 1)]) Sample.unimplemented
              Hg Hgi) as (_ & _ & _ & Htpl & Horder).
  split; [exact Hg|]. split; [exact Hgi|]. split.
  - apply (Htpl "/items/" ["/"; ""]).
    + reflexivity.
    + reflexivity.
    + repeat constructor.
    + reflexivity.
  - apply (Horder [("name", 1); ("id", 2)]).
    + simpl. apply perm_swap.
    + simpl. repeat constructor; simpl; intuition discriminate.
Defined.

Lemma C3_unnamed_groups_at_user_posts :
  groups (regex_of Sample.user_posts) <> 0
  /\ groupindex (regex_of Sample.user_posts) = []
  /\ tornadopath2openapi Sample.user_posts Sample.get_user_post
     = inr "/users/{user_id}/posts/{post_id}".
Proof.
  assert (Hg : groups (regex_of Sample.user_posts) <> 0) by (simpl; lia).
  destruct (proj1 C3_unnamed_groups_use_method_parameters
              Sample.user_posts Sample.get_user_post Hg eq_refl)
    as [_ Htpl].
  split; [exact Hg|]. split; [reflexivity|].
  apply (Htpl "/users/" ["/posts/"; ""]).
  - reflexivity.
  - reflexivity.
  - repeat constructor.
  - reflexivity.
Defined.

Lemma C4_trailing_trim_at_paths :
  1 < PyStr.count "/" "/a/b/?"
  /\ (exists suffix,
         "/a/b/?" = (trim "/a/b/?" ++ suffix)%string
         /\ PyStr.all_in "/?*" suffix = true
         /\ forall c, PyStr.last (trim "/a/b/?") = Some c ->
                      PyStr.mem c "/?*" = false)
  /\ PyStr.count "/" "/?" <= 1
  /\ trim "/?" = "/?"
  /\ groups (regex_of
                (URLSpecLegacy Sample.hello {| groups := 0; groupindex := [] |}
                   "/hello/?")) = 0
  /\ tornadopath2openapi
       (URLSpecLegacy Sample.hello {| groups := 0; groupindex := [] |}
          "/hello/?") Sample.unimplemented
     = inr "/hello".
Proof.
  destruct C4_trailing_trim as (_ & Hmany & Hone & Hnone & _).
  assert (H3 : 1 < PyStr.count "/" "/a/b/?") by (simpl; lia).
  assert (H1 : PyStr.count "/" "/?" <= 1) by (simpl; lia).
  split; [exact H3|]. split; [exact (Hmany _ H3)|].
  split; [exact H1|]. split; [exact (Hone _ H1)|].
  split; [reflexivity|].
  apply (Hnone (URLSpecLegacy Sample.hello {| groups := 0; groupindex := [] |}
                  "/hello/?")).
  reflexivity.
Defined.

Lemma C5_entry_assertion_at_empty_operations :
  path_helper Sample.PATH_KEYS Sample.load Sample.new (Some []) IsNone
  = (raise (AssertionError None), Some [])
  /\ path_helper Sample.PATH_KEYS Sample.load Sample.new None
       (IsTuple "/hello" Sample.hello)
     = (raise (AssertionError None), None).
Proof.
  destruct (C5_entry_assertion_shadows_the_empty_check
              Sample.PATH_KEYS Sample.load Sample.new) as [Hassert _].
  split.
  - apply Hassert. right. reflexivity.
  - apply Hassert. left. reflexivity.
Defined.

Lemma sample_verbs_are_attributes (h : Handler) :
  forallb (fun v => match get v (attributes h) with
                    | Some _ => true
                    | None => false
                    end) Sample.PATH_KEYS = true ->
  forall v, In v Sample.PATH_KEYS -> has_attribute h v.
Proof.
  intros H v Hv. rewrite forallb_forall in H. specialize (H v Hv).
  unfold has_attribute. now destruct (get v (attributes h)).
Defined.

Lemma C6_extractor_at_hello_and_only_get :
  (forall v, In v Sample.PATH_KEYS -> has_attribute Sample.hello v)
  /\ _operations_from_methods Sample.PATH_KEYS Sample.load Sample.hello
     = ([[("get", YMap [("description", YStr "Get a greeting")])]], None)
  /\ get "put" (attributes Sample.only_get) = None
  /\ _operations_from_methods Sample.PATH_KEYS Sample.load Sample.only_get
     = ([[("get", YMap [("description", YStr "Get a greeting")])]],
        Some (AttributeError "put")).
Proof.
  destruct (C6_extractor_follows_the_verb_enumeration
              Sample.PATH_KEYS Sample.load Sample.hello) as (Hall & _ & _).
  destruct (C6_extractor_follows_the_verb_enumeration
              Sample.PATH_KEYS Sample.load Sample.only_get) as (_ & Hmiss & _).
  assert (Hattrs : forall v, In v Sample.PATH_KEYS ->
                             has_attribute Sample.hello v)
    by (apply sample_verbs_are_attributes; reflexivity).
  split; [exact Hattrs|]. split; [exact (Hall Hattrs)|].
  split; [reflexivity|].
  apply (Hmiss ["get"] "put" ["post"; "delete"; "options"; "head"; "patch"]).
  - reflexivity.
  - intros w [<-|[]]. unfold has_attribute. simpl. discriminate.
  - reflexivity.
Defined.

Lemma C8_extensions_at_samples :
  handler_doc Sample.only_get = None
  /\ _extensions_from_handler Sample.load Sample.only_get
     = raise (AssertionError (Some "expect that a function has a docstring"))
  /\ handler_doc Sample.hello = Some "Greetings"
  /\ _extensions_from_handler Sample.load Sample.hello
     = inr [("description", YStr "Greetings")].
Proof.
  split; [reflexivity|]. split.
  - apply (proj1 (C8_extensions_need_a_docstring Sample.load Sample.only_get)).
    left. reflexivity.
  - split; [reflexivity|].
    apply (proj2 (C8_extensions_need_a_docstring Sample.load Sample.hello)
             "Greetings").
    + reflexivity.
    + discriminate.
Defined.

Lemma C9_slot_mismatch_at_three_slots :
  groups (regex_of Sample.three_slots) <> 0
  /\ positional_slots (path_tpl_of Sample.three_slots) = Some 3
  /\ length (path_args (regex_of Sample.three_slots) Sample.unimplemented) = 2
  /\ tornadopath2openapi Sample.three_slots Sample.unimplemented
     = raise (TypeError not_enough_arguments)
  /\ exists e,
       fst (path_helper Sample.PATH_KEYS Sample.load Sample.new
              (Some Sample.given) (IsURLSpec Sample.three_slots))
       = raise e
       /\ tornadopath2openapi Sample.three_slots Sample.unimplemented
          = raise e
       /\ formatting_error e.
Proof.
  assert (Hg : groups (regex_of Sample.three_slots) <> 0) by (simpl; lia).
  assert (Hslots : positional_slots (path_tpl_of Sample.three_slots)
                   <> Some (length (path_args (regex_of Sample.three_slots)
                                      Sample.unimplemented)))
    by (vm_compute; discriminate).
  destruct (C9_slot_mismatch_is_a_formatting_error
              Sample.three_slots Sample.unimplemented Hg Hslots)
    as (_ & Hplain & Hcall).
  split; [exact Hg|]. split; [reflexivity|]. split; [reflexivity|].
  split.
  - apply (proj1 (Hplain 3 eq_refl)). simpl. lia.
  - apply (Hcall Sample.PATH_KEYS Sample.load Sample.new Sample.given
             (IsURLSpec Sample.three_slots) "post"
             [("description", YStr "Greetings")]); reflexivity.
Defined.

Lemma C10_method_is_a_fallback_at_items :
  groupindex (regex_of (Sample.items [("id", 2); ("name", 1)])) <> []
  /\ tornadopath2openapi (Sample.items [("id", 2); ("name", 1)])
       Sample.unimplemented
     = tornadopath2openapi (Sample.items [("id", 2); ("name", 1)])
         Sample.get_user_post
  /\ forall p1 p2 final1 final2,
       path_helper Sample.PATH_KEYS Sample.load Sample.new
         (Some Sample.given)
         (IsURLSpec (Sample.items [("id", 2); ("name", 1)]))
       = (inr p1, final1) ->
       path_helper Sample.PATH_KEYS Sample.load Sample.new
         (Some [("get", YNull)])
         (IsURLSpec (Sample.items [("id", 2); ("name", 1)]))
       = (inr p2, final2) ->
       p1 = p2.
Proof.
  assert (Hgi : groupindex (regex_of (Sample.items [("id", 2); ("name", 1)]))
                <> []) by (simpl; discriminate).
  destruct C10_method_is_a_fallback as [Hmethod Hcalls].
  split; [exact Hgi|]. split.
  - apply Hmethod. left. exact Hgi.
  - intros p1 p2 final1 final2.
    apply (Hcalls Sample.PATH_KEYS Sample.load Sample.new
             (Sample.items [("id", 2); ("name", 1)])).
    left. exact Hgi.
Defined.

(** * Further properties of the plugin *)

(** ** Keys of an updated dict *)

Section DictKeys.

Context {V : Type}.

Lemma keys_set (k : string) (v : V) (d : dict V) :
  exists added, keys (set k v d) = keys d ++ added.
Proof.
  induction d as [|[k' v'] d [added IH]]; simpl.
  - now exists [k].
  - destruct (String.eqb k k'); simpl.
    + exists []. now rewrite app_nil_r.
    + exists added.
      change (k' :: keys (set k v d) = k' :: (keys d ++ added)).
      now rewrite IH.
Qed.

Lemma keys_update (other : dict V) :
  forall d, exists added, keys (update d other) = keys d ++ added.
Proof.
  unfold update.
  induction other as [|[k v] other IH]; intros d; simpl.
  - exists []. now rewrite app_nil_r.
  - destruct (IH (set k v d)) as [added2 H2].
    destruct (keys_set k v d) as [added1 H1].
    exists (added1 ++ added2). now rewrite H2, H1, app_assoc.
Qed.

Lemma keys_updates (items : list (dict V)) :
  forall d, exists added, keys (fold_left update items d) = keys d ++ added.
Proof.
  induction items as [|o items IH]; intros d; simpl.
  - exists []. now rewrite app_nil_r.
  - destruct (IH (update d o)) as [added2 H2].
    destruct (keys_update o d) as [added1 H1].
    exists (added1 ++ added2). now rewrite H2, H1, app_assoc.
Qed.

Lemma get_updates_absent (k : string) (items : list (dict V)) :
  forall d,
    (forall o, In o items -> get k o = None) ->
    get k (fold_left update items d) = get k d.
Proof.
  induction items as [|o items IH]; intros d H; simpl; [reflexivity|].
  rewrite IH by (intros o' Ho'; apply H; now right).
  apply get_update_absent, H. now left.
Qed.

End DictKeys.

Lemma first_key_updates (items : list (dict yaml)) (kv : string * yaml)
  (d : dict yaml) :
  first_key (fold_left update items (kv :: d)) = inr (fst kv).
Proof.
  unfold first_key.
  destruct (keys_updates items (kv :: d)) as [added ->].
  reflexivity.
Qed.

(** ** Character trimming *)

Section RstripMore.

Variable chars : string.

Lemma rstrip_idempotent (s : string) :
  PyStr.rstrip chars (PyStr.rstrip chars s) = PyStr.rstrip chars s.
Proof.
  induction s as [|a s IH]; simpl; [reflexivity|].
  destruct (PyStr.is_empty (PyStr.rstrip chars s) && PyStr.mem a chars)
    eqn:E; simpl; [reflexivity|].
  now rewrite IH, E.
Qed.

(** [rstrip] changes nothing exactly when the last character, if there is
    one, is not in [chars]. *)
Lemma rstrip_fixed (s : string) :
  PyStr.rstrip chars s = s
  <-> (forall c, PyStr.last s = Some c -> PyStr.mem c chars = false).
Proof.
  split.
  - intros H c Hc. rewrite <- H in Hc. now apply rstrip_last in Hc.
  - induction s as [|a s IH]; simpl; [reflexivity|].
    intros H. destruct s as [|b s].
    + simpl. now rewrite (H a eq_refl).
    + rewrite IH by exact H. reflexivity.
Qed.

(** [rstrip] leaves nothing exactly when every character is in [chars]. *)
Lemma rstrip_empty (s : string) :
  PyStr.rstrip chars s = EmptyString <-> PyStr.all_in chars s = true.
Proof.
  induction s as [|a s IH]; simpl; [tauto|].
  destruct (PyStr.rstrip chars s) as [|b r] eqn:Hr; simpl.
  - destruct (PyStr.mem a chars); simpl.
    + split; [intros _; now apply IH|reflexivity].
    + split; discriminate.
  - split; [discriminate|].
    intros H. apply andb_true_iff in H as [_ H].
    apply IH in H. discriminate.
Qed.

End RstripMore.

Lemma trim_idempotent (path : string) : trim (trim path) = trim path.
Proof.
  destruct (Nat.ltb_spec 1 (PyStr.count "/" path)) as [H|H].
  - rewrite (trim_many_slashes path H). unfold trim.
    destruct (Nat.ltb 1 (PyStr.count "/" (PyStr.rstrip "/?*" path)));
      [apply rstrip_idempotent|reflexivity].
  - rewrite (trim_one_slash path H). now apply trim_one_slash.
Qed.

(** ** What the extractor yields *)

Section Yields.

Variable load : option string -> dict yaml.

Lemma operations_loop_yields (h : Handler) (verbs : list string)
  (o : dict yaml) :
  In o (fst (operations_loop load h verbs)) ->
  exists verb m,
    In verb verbs
    /\ get verb (attributes h) = Some m
    /\ o = [(verb, YMap (load (method_doc m)))]
    /\ truthy (load (method_doc m)) = true.
Proof.
  induction verbs as [|v verbs IH]; simpl; [contradiction|].
  unfold getattr.
  destruct (get v (attributes h)) as [m|] eqn:Hm; [|contradiction].
  destruct (truthy (load (method_doc m))) eqn:Ht.
  - simpl. intros [<-|Ho].
    + exists v, m. repeat split; trivial. now left.
    + destruct (IH Ho) as (verb & m' & Hin & H).
      exists verb, m'. split; [now right|exact H].
  - intros Ho. destruct (IH Ho) as (verb & m' & Hin & H).
    exists verb, m'. split; [now right|exact H].
Qed.

Lemma operations_loop_length (h : Handler) (verbs : list string) :
  length (fst (operations_loop load h verbs)) <= length verbs.
Proof.
  induction verbs as [|v verbs IH]; [simpl; lia|].
  cbn [operations_loop length].
  destruct (getattr h v) as [e|m]; [simpl; lia|].
  destruct (truthy (load (method_doc m))); unfold yield_then;
    cbn [fst length]; [now apply le_n_S|now apply le_S].
Qed.

(** The entries yielded for other verbs do not bind [k]. *)
Lemma operations_loop_other_keys (h : Handler) (verbs : list string)
  (k : string) :
  ~ In k verbs ->
  forall o, In o (fst (operations_loop load h verbs)) -> get k o = None.
Proof.
  intros Hk o Ho.
  apply operations_loop_yields in Ho as (verb & m & Hin & _ & -> & _).
  simpl. destruct (String.eqb_spec k verb) as [->|_]; [contradiction|].
  reflexivity.
Qed.

(** After a complete extraction a documented verb holds its own
    description, whatever the dict held before. *)
Lemma operations_loop_writes (h : Handler) (verb : string) (m : Method)
  (verbs : list string) :
  get verb (attributes h) = Some m ->
  truthy (load (method_doc m)) = true ->
  In verb verbs ->
  snd (operations_loop load h verbs) = None ->
  forall d,
    get verb (fold_left update (fst (operations_loop load h verbs)) d)
    = Some (YMap (load (method_doc m))).
Proof.
  intros Hm Ht.
  induction verbs as [|v verbs IH]; simpl; [contradiction|].
  intros Hin Hstop d. unfold getattr in *.
  destruct (in_dec string_dec verb verbs) as [Hlater|Hlast].
  - destruct (get v (attributes h)) as [m'|]; [|discriminate].
    destruct (truthy (load (method_doc m'))); simpl in *; now apply IH.
  - destruct Hin as [->|Hin]; [|contradiction].
    rewrite Hm in *. rewrite Ht in *. simpl in *.
    rewrite get_updates_absent
      by (now apply operations_loop_other_keys).
    unfold update. simpl. apply get_set_same.
Qed.

End Yields.

(** ** The exceptions of the normalizer *)

Lemma tornadopath2openapi_raises (u : URLSpec) (m : Method) (e : exn) :
  tornadopath2openapi u m = inl e ->
  groups (regex_of u) <> 0 /\ formatting_error e.
Proof.
  unfold tornadopath2openapi. intros H. apply rmap_raises in H.
  destruct (Nat.eq_dec (groups (regex_of u)) 0) as [Hz|Hnz].
  - rewrite rendered_without_groups in H by exact Hz. discriminate.
  - split; [exact Hnz|].
    rewrite rendered_with_groups in H by exact Hnz.
    now apply py_format_raises in H.
Qed.

(** ** The entry point, step by step *)

Section EntryPointSteps.

Variable PATH_KEYS : list string.
Variable load : option string -> dict yaml.
Variable new : string -> Handler -> option URLSpec.

Local Abbreviation extract := (_operations_from_methods PATH_KEYS load).
Local Abbreviation extensions := (_extensions_from_handler load).
Local Abbreviation coerce := (coerce_urlspec new).
Local Abbreviation helper := (path_helper PATH_KEYS load new).

(** Past the entry assertion: the check for empty operations cannot fire and
    the first key is the caller's, so the call is the coercion, the
    extraction, the lookup of the caller's first key, the handler's
    extensions and the normalizer, each stopping the call where it raises. *)
Lemma path_helper_steps (kv : string * yaml) (d : dict yaml)
  (arg : UrlspecArg) :
  helper (Some (kv :: d)) arg
  = match coerce arg with
    | inl e => (inl e, Some (kv :: d))
    | inr u =>
        let h := handler_class u in
        let extracted := fold_left update (fst (extract h)) (kv :: d) in
        match snd (extract h) with
        | Some e => (inl e, Some extracted)
        | None =>
            match getattr h (fst kv) with
            | inl e => (inl e, Some extracted)
            | inr m =>
                match extensions h with
                | inl e => (inl e, Some extracted)
                | inr ext =>
                    (tornadopath2openapi u m, Some (update extracted ext))
                end
            end
        end
    end.
Proof.
  unfold path_helper, path_helper_body, Store.bind, Store.lift, Store.read,
    Store.throw.
  destruct (coerce arg) as [e|u]; [reflexivity|].
  rewrite for_each_update.
  destruct (snd (extract (handler_class u))); [reflexivity|].
  rewrite (truthy_updates _ (kv :: d) eq_refl). simpl negb. cbv iota.
  rewrite first_key_updates. cbv zeta.
  destruct (getattr (handler_class u) (fst kv)); [reflexivity|].
  destruct (extensions (handler_class u)); reflexivity.
Qed.

(** The contents of [operations] after a call on a non-empty dict: as
    given, or after the extracted operations, or after these and the
    handler's extensions. *)
Lemma path_helper_final_store (kv : string * yaml) (d : dict yaml)
  (arg : UrlspecArg) :
  snd (helper (Some (kv :: d)) arg) = Some (kv :: d)
  \/ exists u,
       coerce arg = inr u
       /\ let extracted :=
            fold_left update (fst (extract (handler_class u))) (kv :: d) in
          snd (helper (Some (kv :: d)) arg) = Some extracted
          \/ snd (helper (Some (kv :: d)) arg)
             = Some (update extracted (load (handler_doc (handler_class u)))).
Proof.
  rewrite path_helper_steps.
  destruct (coerce arg) as [e|u]; [now left|].
  right. exists u. split; [reflexivity|]. cbv zeta.
  destruct (snd (extract (handler_class u))); [now left|].
  destruct (getattr (handler_class u) (fst kv)); [now left|].
  unfold _extensions_from_handler.
  destruct (doc_truthy (handler_doc (handler_class u))); [now right|now left].
Qed.

End EntryPointSteps.

Lemma extensions_returns (load : option string -> dict yaml) (h : Handler)
  (ext : dict yaml) :
  _extensions_from_handler load h = inr ext -> ext = load (handler_doc h).
Proof.
  unfold _extensions_from_handler.
  destruct (doc_truthy (handler_doc h)); [|discriminate].
  now intros [= <-].
Qed.

Lemma coerce_raises (new : string -> Handler -> option URLSpec)
  (arg : UrlspecArg) (e : exn) :
  coerce_urlspec new arg = inl e ->
  e = URLSpecInitError \/ exists msg, e = TypeError msg.
Proof.
  destruct arg as [u|pattern h|]; simpl; [discriminate| |].
  - destruct (new pattern h); [discriminate|]. intros [= <-]. now left.
  - intros [= <-]. right. now eexists.
Qed.

(** ** The representative method *)


(** X2. The lookup of the first key of [operations] never raises
    [IndexError]: no call of [path_helper] ends with it. *)
Theorem path_helper_never_raises_IndexError :
  forall PATH_KEYS load new operations arg,
    fst (path_helper PATH_KEYS load new operations arg) <> raise IndexError.
Proof.
  intros PATH_KEYS load new operations arg.
  destruct operations as [[|kv d]|]; try (simpl; discriminate).
  rewrite path_helper_steps.
  destruct (coerce_urlspec new arg) as [e|u] eqn:Hu.
  { simpl. intros [= ->].
    apply coerce_raises in Hu as [Hu|[msg Hu]]; discriminate. }
  cbv zeta.
  destruct (snd (_operations_from_methods PATH_KEYS load (handler_class u)))
    as [e|] eqn:Hstop.
  { simpl. intros [= ->].
    apply operations_loop_stop in Hstop as [v Hv]. discriminate. }
  unfold getattr.
  destruct (get (fst kv) (attributes (handler_class u))) as [m|];
    [|simpl; discriminate].
  unfold _extensions_from_handler.
  destruct (doc_truthy (handler_doc (handler_class u)));
    [|simpl; discriminate].
  simpl. intros H.
  apply tornadopath2openapi_raises in H as [_ [[msg H]|[msg H]]];
    discriminate.
Qed.

(** ** What a call does to [operations] *)

(** X3. A call never removes or reorders a key of [operations]: whatever
    the outcome, the keys afterwards are the caller's keys in their order,
    followed by the keys the call added. *)
Theorem path_helper_keeps_the_callers_keys :
  forall PATH_KEYS load new ops arg,
    exists final added,
      snd (path_helper PATH_KEYS load new (Some ops) arg) = Some final
      /\ keys final = keys ops ++ added.
Proof.
  intros PATH_KEYS load new ops arg.
  destruct ops as [|kv d].
  { exists [], []. split; reflexivity. }
  destruct (path_helper_final_store PATH_KEYS load new kv d arg)
    as [H|(u & Hu & H)].
  { exists (kv :: d), []. split; [exact H|now rewrite app_nil_r]. }
  cbv zeta in H.
  destruct (keys_updates
              (fst (_operations_from_methods PATH_KEYS load
                      (handler_class u))) (kv :: d)) as [added1 H1].
  destruct H as [H|H].
  - eexists _, added1. split; [exact H|exact H1].
  - destruct (keys_update (load (handler_doc (handler_class u)))
                (fold_left update
                   (fst (_operations_from_methods PATH_KEYS load
                           (handler_class u))) (kv :: d)))
      as [added2 H2].
    eexists _, (added1 ++ added2). split; [exact H|].
    now rewrite H2, H1, app_assoc.
Qed.

(** X4. A key that is neither a recognized verb nor a key of the handler's
    metadata keeps the value the caller gave it, whatever the outcome of
    the call. *)
Theorem path_helper_leaves_other_keys :
  forall PATH_KEYS load new ops arg k,
    ~ In k PATH_KEYS ->
    (forall u, coerce_urlspec new arg = inr u ->
               get k (load (handler_doc (handler_class u))) = None) ->
    exists final,
      snd (path_helper PATH_KEYS load new (Some ops) arg) = Some final
      /\ get k final = get k ops.
Proof.
  intros PATH_KEYS load new ops arg k Hk Hext.
  destruct ops as [|kv d].
  { exists []. split; reflexivity. }
  assert (Hextracted :
            forall u,
              get k (fold_left update
                       (fst (_operations_from_methods PATH_KEYS load
                               (handler_class u))) (kv :: d))
              = get k (kv :: d)).
  { intros u. apply get_updates_absent.
    now apply operations_loop_other_keys. }
  destruct (path_helper_final_store PATH_KEYS load new kv d arg)
    as [H|(u & Hu & [H|H])]; eexists; (split; [exact H|]).
  - reflexivity.
  - apply Hextracted.
  - rewrite get_update_absent by now apply Hext.
    apply Hextracted.
Qed.

(** X5. The extraction overwrites what the caller had under a verb: after a
    call whose extraction completes, a recognized verb that the handler
    documents holds the description loaded from its docstring, unless the
    handler's metadata has a key of that name. *)
Theorem path_helper_overwrites_documented_verbs :
  forall PATH_KEYS load new kv d arg u verb m,
    coerce_urlspec new arg = inr u ->
    snd (_operations_from_methods PATH_KEYS load (handler_class u)) = None ->
    In verb PATH_KEYS ->
    get verb (attributes (handler_class u)) = Some m ->
    truthy (load (method_doc m)) = true ->
    get verb (load (handler_doc (handler_class u))) = None ->
    exists final,
      snd (path_helper PATH_KEYS load new (Some (kv :: d)) arg) = Some final
      /\ get verb final = Some (YMap (load (method_doc m))).
Proof.
  intros PATH_KEYS load new kv d arg u verb m Hu Hstop Hin Hm Ht Hext.
  assert (Hextracted :
            get verb (fold_left update
                        (fst (_operations_from_methods PATH_KEYS load
                                (handler_class u))) (kv :: d))
            = Some (YMap (load (method_doc m)))).
  { now apply operations_loop_writes. }
  rewrite path_helper_steps, Hu. cbv zeta. rewrite Hstop.
  destruct (getattr (handler_class u) (fst kv)) as [e|m'].
  { eexists. split; [reflexivity|exact Hextracted]. }
  destruct (_extensions_from_handler load (handler_class u)) as [e|ext]
    eqn:He.
  { eexists. split; [reflexivity|exact Hextracted]. }
  apply extensions_returns in He as ->.
  eexists. split; [reflexivity|].
  now rewrite get_update_absent.
Qed.

(** X6. A failed call is not rolled back. When the URLSpec cannot be built
    [operations] is as the caller gave it; when the extraction stops at a
    verb the handler lacks, the call raises [AttributeError] for that verb
    with the operations of the documented verbs before it already merged
    in. *)
Theorem path_helper_failure_keeps_mutations :
  forall PATH_KEYS load new kv d arg,
    (forall e,
        coerce_urlspec new arg = inl e ->
        path_helper PATH_KEYS load new (Some (kv :: d)) arg
        = (inl e, Some (kv :: d)))
    /\ (forall u pre verb post,
           coerce_urlspec new arg = inr u ->
           PATH_KEYS = pre ++ verb :: post ->
           (forall w, In w pre -> has_attribute (handler_class u) w) ->
           get verb (attributes (handler_class u)) = None ->
           path_helper PATH_KEYS load new (Some (kv :: d)) arg
           = (raise (AttributeError verb),
              Some (fold_left update
                      (map (operation_of load (handler_class u))
                         (filter (documented load (handler_class u)) pre))
                      (kv :: d)))).
Proof.
  intros PATH_KEYS load new kv d arg. split.
  - intros e He. now rewrite path_helper_steps, He.
  - intros u pre verb post Hu -> Hpre Hverb.
    rewrite path_helper_steps, Hu. cbv zeta.
    unfold _operations_from_methods.
    now rewrite (operations_loop_absent load (handler_class u) pre post verb
                   Hpre Hverb).
Qed.

(** ** The extractor on any handler *)

(** X7. Whatever the handler, every item the extractor yields is a one-key
    dict: the key is a recognized verb that is an attribute of the handler
    and the value is the non-empty dict loaded from that attribute's
    docstring; there are at most as many items as recognized verbs. *)
Theorem extractor_yields_only_documented_verbs :
  forall (PATH_KEYS : list string) (load : option string -> dict yaml)
         (h : Handler),
    (forall o,
        In o (fst (_operations_from_methods PATH_KEYS load h)) ->
        exists verb m,
          In verb PATH_KEYS
          /\ get verb (attributes h) = Some m
          /\ o = [(verb, YMap (load (method_doc m)))]
          /\ load (method_doc m) <> [])
    /\ length (fst (_operations_from_methods PATH_KEYS load h))
       <= length PATH_KEYS.
Proof.
  intros PATH_KEYS load h. unfold _operations_from_methods. split.
  - intros o Ho.
    apply operations_loop_yields in Ho as (verb & m & Hin & Hm & Ho & Ht).
    exists verb, m. repeat split; trivial.
    intros Hnil. rewrite Hnil in Ht. discriminate.
  - apply operations_loop_length.
Qed.

(** ** The normalizer's result *)

(** X8. When the regex has capturing groups and the template is made of
    literal text, [%s] slots and [%%], the normalizer returns a path exactly
    when there are as many derived names as slots. *)
Theorem normalizer_returns_iff_names_match_slots :
  forall (u : URLSpec) (method : Method) (n : nat),
    groups (regex_of u) <> 0 ->
    slot_count (path_tpl_of u) = Some n ->
    ((exists path, tornadopath2openapi u method = inr path)
     <-> length (path_args (regex_of u) method) = n).
Proof.
  intros u method n Hg Hn.
  destruct (py_format_slots (path_tpl_of u) n
              (map PyStr.braces (path_args (regex_of u) method)) Hn)
    as (Hfew & Hmany & Hsame).
  rewrite length_map in Hfew, Hmany, Hsame.
  unfold tornadopath2openapi. rewrite rendered_with_groups by exact Hg.
  split.
  - intros [path Hpath].
    destruct (Nat.lt_total (length (path_args (regex_of u) method)) n)
      as [Hlt|[Heq|Hgt]]; [|exact Heq|].
    + rewrite (Hfew Hlt) in Hpath. discriminate.
    + rewrite (Hmany Hgt) in Hpath. discriminate.
  - intros Heq. now apply rmap_returns, Hsame.
Qed.

(** X9. A returned path is already trimmed: the trim leaves it as it is, a
    returned path with more than one ['/'] does not end with ['/'], ['?']
    or ['*'], and used as the template of a URLSpec without groups it is
    returned unchanged. *)
Theorem returned_path_is_trimmed :
  forall (u : URLSpec) (method : Method) (path : string),
    tornadopath2openapi u method = inr path ->
    trim path = path
    /\ (1 < PyStr.count "/" path ->
        forall c, PyStr.last path = Some c -> PyStr.mem c "/?*" = false)
    /\ (forall u' method',
           groups (regex_of u') = 0 -> path_tpl_of u' = path ->
           tornadopath2openapi u' method' = inr path).
Proof.
  intros u method path H. unfold tornadopath2openapi in H.
  destruct (rendered_path u method) as [e|rendered]; [discriminate|].
  injection H as <-.
  assert (Hfix : trim (trim rendered) = trim rendered)
    by apply trim_idempotent.
  split; [exact Hfix|]. split.
  - intros Hmany. apply rstrip_fixed.
    now rewrite <- (trim_many_slashes _ Hmany).
  - intros u' method' Hg Htpl. unfold tornadopath2openapi.
    rewrite rendered_without_groups, Htpl by exact Hg.
    cbn [rmap]. now rewrite Hfix.
Qed.

(** X10. Without capturing groups the template is returned verbatim exactly
    when it has at most one ['/'] or does not end with ['/'], ['?'] or
    ['*']. *)
Theorem template_returned_verbatim_iff :
  forall (u : URLSpec) (method : Method),
    groups (regex_of u) = 0 ->
    (tornadopath2openapi u method = inr (path_tpl_of u)
     <-> PyStr.count "/" (path_tpl_of u) <= 1
         \/ (forall c, PyStr.last (path_tpl_of u) = Some c ->
                       PyStr.mem c "/?*" = false)).
Proof.
  intros u method Hg. unfold tornadopath2openapi.
  rewrite rendered_without_groups by exact Hg. simpl rmap.
  destruct (Nat.ltb_spec 1 (PyStr.count "/" (path_tpl_of u))) as [Hmany|Hone].
  - rewrite (trim_many_slashes _ Hmany). split.
    + intros [= H]. right. now apply rstrip_fixed.
    + intros [Hle|Hlast]; [lia|].
      f_equal. now apply rstrip_fixed.
  - rewrite (trim_one_slash _ Hone). split; [now left|reflexivity].
Qed.

(** X11. Without capturing groups the returned path is empty exactly when
    the template is empty or consists of ['/'], ['?'] and ['*'] only, with
    more than one ['/']. *)
Theorem empty_path_iff :
  forall (u : URLSpec) (method : Method),
    groups (regex_of u) = 0 ->
    (tornadopath2openapi u method = inr EmptyString
     <-> path_tpl_of u = EmptyString
         \/ (1 < PyStr.count "/" (path_tpl_of u)
             /\ PyStr.all_in "/?*" (path_tpl_of u) = true)).
Proof.
  intros u method Hg. unfold tornadopath2openapi.
  rewrite rendered_without_groups by exact Hg. simpl rmap.
  destruct (Nat.ltb_spec 1 (PyStr.count "/" (path_tpl_of u))) as [Hmany|Hone].
  - rewrite (trim_many_slashes _ Hmany). split.
    + intros [= H]. right. split; [exact Hmany|now apply rstrip_empty].
    + intros [Hnil|[_ Hall]].
      * rewrite Hnil in Hmany. simpl in Hmany. lia.
      * f_equal. now apply rstrip_empty.
  - rewrite (trim_one_slash _ Hone). split.
    + intros [= H]. now left.
    + intros [Hnil|[Hmany _]]; [now rewrite Hnil|lia].
Qed.

(** ** Writing the same entries twice *)

Section DictTwice.

Context {V : Type}.

Lemma get_set (k' k : string) (v : V) (d : dict V) :
  get k' (set k v d) = if String.eqb k' k then Some v else get k' d.
Proof.
  destruct (String.eqb_spec k' k) as [->|Hne].
  - apply get_set_same.
  - now apply get_set_other.
Qed.

(** At a given key an update either keeps what the dict held or writes a
    value that does not depend on the dict. *)
Lemma get_update_cases (k : string) (other : dict V) :
  (forall d, get k (update d other) = get k d)
  \/ (exists v, forall d, get k (update d other) = Some v).
Proof.
  unfold update.
  induction other as [|[k1 v1] other [IH|[v IH]]]; simpl.
  - now left.
  - destruct (String.eqb_spec k k1) as [->|Hne].
    + right. exists v1. intros d. rewrite IH. apply get_set_same.
    + left. intros d. rewrite IH. now apply get_set_other.
  - right. exists v. intros d. apply IH.
Qed.

Lemma get_updates_cases (k : string) (items : list (dict V)) :
  (forall d, get k (fold_left update items d) = get k d)
  \/ (exists v, forall d, get k (fold_left update items d) = Some v).
Proof.
  induction items as [|o items [IH|[v IH]]]; simpl.
  - now left.
  - destruct (get_update_cases k o) as [Ho|[v Ho]].
    + left. intros d. now rewrite IH, Ho.
    + right. exists v. intros d. now rewrite IH, Ho.
  - right. exists v. intros d. apply IH.
Qed.

Lemma keys_set_cases (k : string) (v : V) (d : dict V) :
  (In k (keys d) /\ keys (set k v d) = keys d)
  \/ (~ In k (keys d) /\ keys (set k v d) = keys d ++ [k]).
Proof.
  induction d as [|[k' v'] d IH]; simpl.
  - right. split; [tauto|reflexivity].
  - destruct (String.eqb_spec k k') as [->|Hne]; simpl.
    + left. split; [now left|reflexivity].
    + change (map fst (set k v d)) with (keys (set k v d)).
      change (map fst d) with (keys d).
      destruct IH as [[Hin ->]|[Hout ->]].
      * left. split; [now right|reflexivity].
      * right. split; [|reflexivity].
        intros [H|H]; [now apply Hne|now apply Hout].
Qed.

Lemma in_keys_set (k' k : string) (v : V) (d : dict V) :
  In k' (keys (set k v d)) <-> k' = k \/ In k' (keys d).
Proof.
  destruct (keys_set_cases k v d) as [[Hin ->]|[Hout ->]].
  - split; [now right|]. intros [->|H]; trivial.
  - rewrite in_app_iff. simpl. intuition.
Qed.

Lemma in_keys_update (k : string) (other : dict V) :
  forall d, In k (keys (update d other)) <-> In k (keys d) \/ In k (keys other).
Proof.
  unfold update.
  induction other as [|[k1 v1] other IH]; intros d; simpl; [tauto|].
  rewrite IH, in_keys_set. intuition.
Qed.

Lemma in_keys_updates (k : string) (items : list (dict V)) :
  forall d,
    In k (keys (fold_left update items d))
    <-> In k (keys d) \/ In k (flat_map keys items).
Proof.
  induction items as [|o items IH]; intros d; simpl; [tauto|].
  rewrite IH, in_keys_update, in_app_iff. tauto.
Qed.

Lemma NoDup_keys_set (k : string) (v : V) (d : dict V) :
  NoDup (keys d) -> NoDup (keys (set k v d)).
Proof.
  intros N. destruct (keys_set_cases k v d) as [[_ ->]|[Hout ->]]; trivial.
  apply NoDup_app; [exact N|repeat constructor; simpl; tauto|].
  intros x Hx [<-|[]]. now apply Hout.
Qed.

Lemma NoDup_keys_update (other : dict V) :
  forall d, NoDup (keys d) -> NoDup (keys (update d other)).
Proof.
  unfold update.
  induction other as [|[k v] other IH]; intros d N; simpl; trivial.
  now apply IH, NoDup_keys_set.
Qed.

Lemma NoDup_keys_updates (items : list (dict V)) :
  forall d, NoDup (keys d) -> NoDup (keys (fold_left update items d)).
Proof.
  induction items as [|o items IH]; intros d N; simpl; trivial.
  now apply IH, NoDup_keys_update.
Qed.

Lemma keys_update_present (other : dict V) :
  forall d, incl (keys other) (keys d) -> keys (update d other) = keys d.
Proof.
  unfold update.
  induction other as [|[k v] other IH]; intros d H; simpl; trivial.
  assert (Hk : In k (keys d)) by (apply H; now left).
  destruct (keys_set_cases k v d) as [[_ Hs]|[Hout _]]; [|contradiction].
  rewrite IH; [exact Hs|].
  rewrite Hs. intros x Hx. apply H. now right.
Qed.

Lemma keys_updates_present (items : list (dict V)) :
  forall d,
    incl (flat_map keys items) (keys d) ->
    keys (fold_left update items d) = keys d.
Proof.
  induction items as [|o items IH]; intros d H; simpl; trivial.
  assert (Ho : keys (update d o) = keys d).
  { apply keys_update_present. intros x Hx. apply H. simpl.
    apply in_app_iff. now left. }
  rewrite IH; [exact Ho|].
  rewrite Ho. intros x Hx. apply H. simpl. apply in_app_iff. now right.
Qed.

(** Dicts with the same keys in the same order and the same value at every
    key are equal. *)
Lemma dict_ext (d1 : dict V) :
  forall d2,
    keys d1 = keys d2 -> NoDup (keys d1) ->
    (forall k, get k d1 = get k d2) -> d1 = d2.
Proof.
  induction d1 as [|[k1 v1] d1 IH]; intros [|[k2 v2] d2] Hk N Hg;
    try discriminate; [reflexivity|].
  simpl in Hk. injection Hk as <- Hk.
  inversion N as [|? ? Hout N']; subst.
  pose proof (Hg k1) as H1. simpl in H1. rewrite String.eqb_refl in H1.
  injection H1 as <-. f_equal.
  apply IH; trivial.
  intros k. destruct (String.eqb_spec k k1) as [->|Hne].
  - rewrite !get_absent; trivial. unfold keys in *. now rewrite <- Hk.
  - specialize (Hg k). simpl in Hg.
    apply String.eqb_neq in Hne. now rewrite Hne in Hg.
Qed.

(** Applying a sequence of updates to its own result changes nothing. *)
Lemma updates_idempotent (items : list (dict V)) (d : dict V) :
  NoDup (keys d) ->
  fold_left update items (fold_left update items d)
  = fold_left update items d.
Proof.
  intros N. apply dict_ext.
  - apply keys_updates_present. intros k Hk.
    apply in_keys_updates. now right.
  - now apply NoDup_keys_updates, NoDup_keys_updates.
  - intros k. destruct (get_updates_cases k items) as [H|[v H]].
    + now rewrite H.
    + now rewrite !H.
Qed.

Lemma updates_head (items : list (dict V)) (kv : string * V) (d : dict V) :
  exists v' d', fold_left update items (kv :: d) = (fst kv, v') :: d'.
Proof.
  destruct (keys_updates items (kv :: d)) as [added H].
  destruct (fold_left update items (kv :: d)) as [|[k' v'] d'];
    [discriminate|].
  simpl in H. injection H as -> _. now exists v', d'.
Qed.

End DictTwice.

Lemma updates_then_update {V} (items : list (dict V)) (other d : dict V) :
  update (fold_left update items d) other
  = fold_left update (items ++ [other]) d.
Proof. now rewrite fold_left_app. Qed.

(** ** Calls compared *)

(** X12. The outcome of a call, path or exception, depends on [operations]
    only through its first key: two non-empty dicts with the same first key
    give the same outcome, whatever else they hold. *)
Theorem path_helper_outcome_depends_on_first_key :
  forall PATH_KEYS load new k v1 d1 v2 d2 arg,
    fst (path_helper PATH_KEYS load new (Some ((k, v1) :: d1)) arg)
    = fst (path_helper PATH_KEYS load new (Some ((k, v2) :: d2)) arg).
Proof.
  intros PATH_KEYS load new k v1 d1 v2 d2 arg.
  rewrite !path_helper_steps.
  destruct (coerce_urlspec new arg) as [e|u]; [reflexivity|].
  cbv zeta. simpl fst.
  destruct (snd (_operations_from_methods PATH_KEYS load (handler_class u)));
    [reflexivity|].
  destruct (getattr (handler_class u) k); [reflexivity|].
  destruct (_extensions_from_handler load (handler_class u)); reflexivity.
Qed.

(** X13. A call repeated on the [operations] it left behind has the same
    outcome and leaves [operations] as it found them: what the call writes,
    it writes once. *)
Theorem path_helper_twice :
  forall PATH_KEYS load new operations arg,
    (forall ops, operations = Some ops -> NoDup (keys ops)) ->
    path_helper PATH_KEYS load new
      (snd (path_helper PATH_KEYS load new operations arg)) arg
    = path_helper PATH_KEYS load new operations arg.
Proof.
  intros PATH_KEYS load new operations arg N.
  destruct operations as [[|kv d]|]; [reflexivity| |reflexivity].
  specialize (N _ eq_refl).
  change (@Some (dict yaml) (kv :: d))
    with (@Some (list (string * yaml)) (kv :: d)).
  rewrite (path_helper_steps PATH_KEYS load new kv d arg).
  destruct (coerce_urlspec new arg) as [e|u] eqn:Hu.
  { simpl snd. now rewrite path_helper_steps, Hu. }
  cbv zeta.
  set (ys := fst (_operations_from_methods PATH_KEYS load (handler_class u))).
  assert (Hsame : forall r items,
             path_helper PATH_KEYS load new
               (Some (fold_left update items (kv :: d))) arg
             = (r, Some (fold_left update items
                           (fold_left update items (kv :: d)))) ->
             path_helper PATH_KEYS load new
               (Some (fold_left update items (kv :: d))) arg
             = (r, Some (fold_left update items (kv :: d)))).
  { intros r items H. rewrite H. now rewrite updates_idempotent. }
  destruct (updates_head ys kv d) as (v1 & d1 & H1).
  destruct (snd (_operations_from_methods PATH_KEYS load (handler_class u)))
    as [e|] eqn:Hstop.
  { simpl snd. apply Hsame. rewrite H1 at 1.
    rewrite path_helper_steps, Hu. cbv zeta. rewrite Hstop.
    fold ys. now rewrite <- H1. }
  destruct (getattr (handler_class u) (fst kv)) as [e|m] eqn:Hm.
  { simpl snd. apply Hsame. rewrite H1 at 1.
    rewrite path_helper_steps, Hu. cbv zeta. rewrite Hstop. simpl fst.
    rewrite Hm. fold ys. now rewrite <- H1. }
  destruct (_extensions_from_handler load (handler_class u)) as [e|ext]
    eqn:Hext.
  { simpl snd. apply Hsame. rewrite H1 at 1.
    rewrite path_helper_steps, Hu. cbv zeta. rewrite Hstop. simpl fst.
    rewrite Hm, Hext. fold ys. now rewrite <- H1. }
  simpl snd. rewrite updates_then_update. apply Hsame.
  destruct (updates_head (ys ++ [ext]) kv d) as (v2 & d2 & H2).
  rewrite H2 at 1.
  rewrite path_helper_steps, Hu. cbv zeta. rewrite Hstop. simpl fst.
  rewrite Hm, Hext. fold ys. rewrite <- H2.
  now rewrite updates_then_update.
Qed.

(** ** The further properties at sample inputs *)


Lemma path_helper_leaves_other_keys_at_hello :
  ~ In "x-internal" Sample.PATH_KEYS
  /\ exists final,
       snd (path_helper Sample.PATH_KEYS Sample.load Sample.new
              (Some [("get", YNull); ("x-internal", YBool true)])
              (IsTuple "/hello" Sample.hello)) = Some final
       /\ get "x-internal" final = Some (YBool true).
Proof.
  assert (Hk : ~ In "x-internal" Sample.PATH_KEYS)
    by (simpl; intuition discriminate).
  split; [exact Hk|].
  apply (path_helper_leaves_other_keys
           Sample.PATH_KEYS Sample.load Sample.new
           [("get", YNull); ("x-internal", YBool true)]
           (IsTuple "/hello" Sample.hello) "x-internal" Hk).
  intros u [= <-]. reflexivity.
Defined.

Lemma path_helper_overwrites_documented_verbs_at_hello :
  exists final,
    snd (path_helper Sample.PATH_KEYS Sample.load Sample.new
           (Some [("get", YStr "stale")])
           (IsTuple "/hello" Sample.hello)) = Some final
    /\ get "get" final
       = Some (YMap [("description", YStr "Get a greeting")]).
Proof.
  apply (path_helper_overwrites_documented_verbs
           Sample.PATH_KEYS Sample.load Sample.new
           ("get", YStr "stale") [] (IsTuple "/hello" Sample.hello)
           (URLSpecMatcher Sample.hello
              {| matcher_regex := {| groups := 0; groupindex := [] |};
                 matcher_path := "/hello" |})
           "get" Sample.get_only_self).
  - reflexivity.
  - reflexivity.
  - simpl. tauto.
  - reflexivity.
  - reflexivity.
  - reflexivity.
Defined.

Lemma path_helper_failure_keeps_mutations_at_only_get :
  path_helper Sample.PATH_KEYS Sample.load Sample.new
    (Some Sample.given) IsNone
  = (raise (TypeError "argument after * must be an iterable"),
     Some Sample.given)
  /\ path_helper Sample.PATH_KEYS Sample.load Sample.new
       (Some Sample.given) (IsTuple "/hello" Sample.only_get)
     = (raise (AttributeError "put"),
        Some [("post", YMap [("summary", YStr "given")]);
              ("get", YMap [("description", YStr "Get a greeting")])]).
Proof.
  split.
  - apply (proj1 (path_helper_failure_keeps_mutations
                    Sample.PATH_KEYS Sample.load Sample.new
                    ("post", YMap [("summary", YStr "given")]) [] IsNone)).
    reflexivity.
  - apply (proj2 (path_helper_failure_keeps_mutations
                    Sample.PATH_KEYS Sample.load Sample.new
                    ("post", YMap [("summary", YStr "given")]) []
                    (IsTuple "/hello" Sample.only_get))
             (URLSpecMatcher Sample.only_get
                {| matcher_regex := {| groups := 0; groupindex := [] |};
                   matcher_path := "/hello" |})
             ["get"] "put" ["post"; "delete"; "options"; "head"; "patch"]).
    + reflexivity.
    + reflexivity.
    + intros w [<-|[]]. unfold has_attribute. simpl. discriminate.
    + reflexivity.
Defined.

Lemma extractor_yields_only_documented_verbs_at_hello :
  In [("get", YMap [("description", YStr "Get a greeting")])]
    (fst (_operations_from_methods Sample.PATH_KEYS Sample.load Sample.hello))
  /\ exists verb m,
       In verb Sample.PATH_KEYS
       /\ get verb (attributes Sample.hello) = Some m
       /\ [("get", YMap [("description", YStr "Get a greeting")])]
          = [(verb, YMap (Sample.load (method_doc m)))]
       /\ Sample.load (method_doc m) <> [].
Proof.
  assert (Hin : In [("get", YMap [("description", YStr "Get a greeting")])]
                  (fst (_operations_from_methods Sample.PATH_KEYS Sample.load
                          Sample.hello))) by (simpl; tauto).
  split; [exact Hin|].
  exact (proj1 (extractor_yields_only_documented_verbs
                  Sample.PATH_KEYS Sample.load Sample.hello) _ Hin).
Defined.

Lemma normalizer_returns_iff_names_match_slots_at_three_slots :
  groups (regex_of Sample.three_slots) <> 0
  /\ slot_count (path_tpl_of Sample.three_slots) = Some 3
  /\ exists path,
       tornadopath2openapi Sample.three_slots
         {| method_doc := None; parameters := ["self"; "a"; "b"; "c"] |}
       = inr path.
Proof.
  assert (Hg : groups (regex_of Sample.three_slots) <> 0) by (simpl; lia).
  split; [exact Hg|]. split; [reflexivity|].
  apply (proj2 (normalizer_returns_iff_names_match_slots
                  Sample.three_slots
                  {| method_doc := None;
                     parameters := ["self"; "a"; "b"; "c"] |} 3 Hg eq_refl)).
  reflexivity.
Defined.

Lemma returned_path_is_trimmed_at_user_posts :
  tornadopath2openapi Sample.user_posts Sample.get_user_post
  = inr "/users/{user_id}/posts/{post_id}"
  /\ trim "/users/{user_id}/posts/{post_id}"
     = "/users/{user_id}/posts/{post_id}"
  /\ tornadopath2openapi
       (URLSpecLegacy Sample.hello {| groups := 0; groupindex := [] |}
          "/users/{user_id}/posts/{post_id}") Sample.unimplemented
     = inr "/users/{user_id}/posts/{post_id}".
Proof.
  destruct (returned_path_is_trimmed Sample.user_posts Sample.get_user_post
              "/users/{user_id}/posts/{post_id}" eq_refl)
    as (Hfix & _ & Hagain).
  split; [reflexivity|]. split; [exact Hfix|].
  apply Hagain; reflexivity.
Defined.

Lemma template_returned_verbatim_at_percent_literal :
  groups (regex_of Sample.percent_literal) = 0
  /\ PyStr.count "/" (path_tpl_of Sample.percent_literal) <= 1
  /\ tornadopath2openapi Sample.percent_literal Sample.unimplemented
     = inr (path_tpl_of Sample.percent_literal).
Proof.
  assert (Hone : PyStr.count "/" (path_tpl_of Sample.percent_literal) <= 1)
    by (simpl; lia).
  split; [reflexivity|]. split; [exact Hone|].
  apply (proj2 (template_returned_verbatim_iff Sample.percent_literal
                  Sample.unimplemented eq_refl)).
  left. exact Hone.
Defined.

Lemma empty_path_at_double_slash :
  groups (regex_of (URLSpecLegacy Sample.hello
                      {| groups := 0; groupindex := [] |} "//")) = 0
  /\ tornadopath2openapi
       (URLSpecLegacy Sample.hello {| groups := 0; groupindex := [] |} "//")
       Sample.unimplemented
     = inr EmptyString.
Proof.
  split; [reflexivity|].
  apply (proj2 (empty_path_iff
                  (URLSpecLegacy Sample.hello
                     {| groups := 0; groupindex := [] |} "//")
                  Sample.unimplemented eq_refl)).
  right. split; [simpl; lia|reflexivity].
Defined.

Lemma path_helper_twice_at_tagged :
  NoDup (keys Sample.given)
  /\ path_helper Sample.PATH_KEYS Sample.load_tagged Sample.new
       (snd (path_helper Sample.PATH_KEYS Sample.load_tagged Sample.new
               (Some Sample.given)
               (IsTuple "/pets" (Sample.tagged "handler get and tags"))))
       (IsTuple "/pets" (Sample.tagged "handler get and tags"))
     = path_helper Sample.PATH_KEYS Sample.load_tagged Sample.new
         (Some Sample.given)
         (IsTuple "/pets" (Sample.tagged "handler get and tags")).
Proof.
  assert (N : NoDup (keys Sample.given))
    by (simpl; repeat constructor; simpl; tauto).
  split; [exact N|].
  apply path_helper_twice.
  intros ops [= <-]. exact N.
Defined.

(** * The merge of the handler's metadata *)

(** C7, as the code has it. In a call that gets past the extraction the
    handler's metadata is written into [operations] after the extracted
    operations, key by key at the top level of [operations]: every key of
    the metadata ends with the metadata's value, also when an extracted
    operation or the caller had put a value under that key, and every
    other key keeps the value it had after the extraction. The merge does
    not descend into the descriptions: a documented verb that is not itself
    a key of the metadata still holds the description loaded from its
    method's docstring, whatever keys the metadata defines. *)
Theorem C7_handler_metadata_merged_at_top_level :
  forall PATH_KEYS load new ops arg u name m ext,
    truthy ops = true ->
    coerce_urlspec new arg = inr u ->
    snd (_operations_from_methods PATH_KEYS load (handler_class u)) = None ->
    first_key
      (fold_left update
         (fst (_operations_from_methods PATH_KEYS load (handler_class u)))
         ops)
    = inr name ->
    getattr (handler_class u) name = inr m ->
    _extensions_from_handler load (handler_class u) = inr ext ->
    NoDup (keys ext) ->
    let extracted :=
      fold_left update
        (fst (_operations_from_methods PATH_KEYS load (handler_class u)))
        ops in
    snd (path_helper PATH_KEYS load new (Some ops) arg)
    = Some (update extracted ext)
    /\ (forall k v,
           get k ext = Some v -> get k (update extracted ext) = Some v)
    /\ (forall k,
           get k ext = None ->
           get k (update extracted ext) = get k extracted)
    /\ (forall verb method,
           In verb PATH_KEYS ->
           get verb (attributes (handler_class u)) = Some method ->
           truthy (load (method_doc method)) = true ->
           get verb ext = None ->
           get verb (update extracted ext)
           = Some (YMap (load (method_doc method)))).
Proof.
  intros PATH_KEYS load new ops arg u name m ext
    Hops Hu Hstop Hkey Hm Hext Hdict extracted.
  rewrite (path_helper_reaches_normalizer PATH_KEYS load new ops arg u name
             m ext Hops Hu Hstop Hkey Hm Hext).
  split; [reflexivity|]. split; [|split].
  - intros k v. now apply get_update_present.
  - intros k. apply get_update_absent.
  - intros verb method Hin Hattr Hdoc Hnone.
    rewrite get_update_absent by exact Hnone.
    unfold extracted, _operations_from_methods.
    now apply operations_loop_writes.
Qed.

(** C7 as stated does not hold for a key defined inside a per-method
    description: with [tags] in the docstring of [get] and in the docstring
    of the handler, the description under [get] keeps the method's [tags];
    the handler's value is stored under [tags] next to [get]. *)
Lemma C7_per_method_tags_survive :
  exists final description,
    snd (path_helper Sample.PATH_KEYS Sample.load_tagged Sample.new
           (Some Sample.given)
           (IsTuple "/pets" (Sample.tagged "handler tags")))
    = Some final
    /\ get "tags" (Sample.load_tagged (Some "handler tags"))
       = Some (YSeq [YStr "all"])
    /\ get "get" final = Some (YMap description)
    /\ get "tags" description = Some (YSeq [YStr "pets"])
    /\ get "tags" description
       <> get "tags" (Sample.load_tagged (Some "handler tags"))
    /\ get "tags" final = Some (YSeq [YStr "all"]).
Proof.
  eexists. eexists.
  split; [reflexivity|]. split; [reflexivity|]. split; [reflexivity|].
  split; [reflexivity|]. split; [discriminate|reflexivity].
Qed.

Lemma C7_handler_metadata_at_tagged :
  let h := Sample.tagged "handler tags" in
  let final :=
    [("post", YMap [("summary", YStr "given")]);
     ("get", YMap [("tags", YSeq [YStr "pets"])]);
     ("tags", YSeq [YStr "all"])] in
  snd (path_helper Sample.PATH_KEYS Sample.load_tagged Sample.new
         (Some Sample.given) (IsTuple "/pets" h))
  = Some final
  /\ get "tags" final = Some (YSeq [YStr "all"])
  /\ get "post" final = Some (YMap [("summary", YStr "given")])
  /\ get "get" final = Some (YMap [("tags", YSeq [YStr "pets"])]).
Proof.
  intros h final.
  destruct (C7_handler_metadata_merged_at_top_level
              Sample.PATH_KEYS Sample.load_tagged Sample.new
              Sample.given (IsTuple "/pets" h)
              (URLSpecMatcher h
                 {| matcher_regex := {| groups := 0; groupindex := [] |};
                    matcher_path := "/pets" |})
              "post" Sample.unimplemented
              [("tags", YSeq [YStr "all"])])
    as (Hfinal & Hin & Hout & Hverb).
  - reflexivity.
  - reflexivity.
  - reflexivity.
  - reflexivity.
  - reflexivity.
  - reflexivity.
  - simpl. repeat constructor; simpl; intuition discriminate.
  - split; [exact Hfinal|]. split; [|split].
    + apply (Hin "tags"). reflexivity.
    + exact (Hout "post" eq_refl).
    + apply (Hverb "get" {| method_doc := Some "method tags";
                            parameters := ["self"] |}).
      * simpl. tauto.
      * reflexivity.
      * reflexivity.
      * reflexivity.
Defined.
